(** * dataTables.js: verification of the table-widget glue script

    Source: master/buildbot/status/web/files/script/project/dataTables.js

    The script is an AMD module with two injected dependencies, the table
    widget plugin ([datatables-plugin]) and the project's [helpers].  Its
    single function [init] selects the tables of the page by CSS class,
    builds an options object for each, instantiates the widget and wires
    the filter text inputs to the widget's [fnFilter].

    The embedding has three layers:
    - [Dom]: the page as a tree of elements with node identities, and the
      jQuery selections the script uses;
    - [Js]: JavaScript values, so that the options object is a map from
      property names to values and an assignment is a map insert;
    - [DataTables]: the script itself, in a state-and-output monad over
      the page, parameterised by the injected dependencies. *)

From Stdlib Require Import ZArith Ascii String List Bool Arith Lia.
From stdpp Require Import base option list strings gmap fin_maps.

Local Open Scope string_scope.
Local Open Scope list_scope.

(** The double-quote character, which occurs inside the script's single-quoted
    string literals. *)
Definition dq : string := String (ascii_of_nat 34) EmptyString.

(* ===================================================================== *)
(** ** The page *)
(* ===================================================================== *)

Module Dom.

(** An element node.  [nid] is the identity of the node (what a JavaScript
    reference to the node denotes); [ident] is its [id] attribute, [classes]
    its class list, [attrs] its other attributes, [value] the value property
    of a form control and [text] the text it directly contains. *)
#[local] Unset Elimination Schemes.
Inductive element : Type :=
  Element {
    nid : nat;
    tag : string;
    ident : option string;
    classes : list string;
    attrs : gmap string string;
    value : string;
    text : string;
    children : list element
  }.
#[local] Set Elimination Schemes.

(** Induction over the tree, with the hypothesis available for every child. *)
Fixpoint element_tree_ind (P : element -> Prop)
    (step : forall n t i c a v x ch,
        Forall P ch -> P (Element n t i c a v x ch))
    (e : element) : P e :=
  match e with
  | Element n t i c a v x ch =>
      step n t i c a v x ch
        ((fix all (l : list element) : Forall P l :=
            match l with
            | [] => @List.Forall_nil _ P
            | y :: l' =>
                @List.Forall_cons _ P y l' (element_tree_ind P step y) (all l')
            end) ch)
  end.

(** [$(e).hasClass(c)] *)
Definition hasClass (c : string) (e : element) : bool :=
  existsb (String.eqb c) (classes e).

Definition hasTag (t : string) (e : element) : bool := String.eqb t (tag e).

Definition hasId (i : string) (e : element) : bool :=
  match ident e with
  | Some j => String.eqb i j
  | None => false
  end.

(** The element and all its descendants, in document order. *)
Fixpoint elements (e : element) : list element :=
  e :: flat_map elements (children e).

(** The proper descendants of an element, in document order. *)
Definition descendants (e : element) : list element :=
  flat_map elements (children e).

(** The node with the given identity, as it stands in the page. *)
Definition find_node (n : nat) (d : element) : option element :=
  List.find (fun e => Nat.eqb (nid e) n) (elements d).

(** What a reference [r], taken earlier, denotes now: the node of the same
    identity in the current page.  A node that is no longer in the page keeps
    the state it had when the reference was taken. *)
Definition deref (r : element) (d : element) : element :=
  match find_node (nid r) d with
  | Some e => e
  | None => r
  end.

(** [$('.c')]: every element of the page with class [c]. *)
Definition select_class (c : string) (d : element) : list element :=
  List.filter (hasClass c) (elements d).

(** [$('#i')]: jQuery resolves an id selector to at most one element, the
    first in document order. *)
Definition select_id (i : string) (d : element) : list element :=
  match List.find (hasId i) (elements d) with
  | Some e => [e]
  | None => []
  end.

(** [$('.c t')]: the elements with tag [t] that lie below an element
    with class [c].  [inside] records whether such an ancestor was passed. *)
Fixpoint select_class_descendant (c t : string) (inside : bool) (e : element)
  : list element :=
  (if inside && hasTag t e then [e] else [])
    ++ flat_map (select_class_descendant c t (inside || hasClass c e))
                (children e).

(** [$('> p t', ctx)]: the elements with tag [t] below a child of [ctx]
    that has tag [p]. *)
Definition select_child_descendant (p t : string) (ctx : element)
  : list element :=
  flat_map
    (fun c => if hasTag p c
              then List.filter (hasTag t) (descendants c)
              else [])
    (children ctx).

(** [.attr(k, v)] on the nodes whose identity is in [ids]. *)
Fixpoint set_attr (ids : list nat) (k v : string) (e : element) : element :=
  Element (nid e) (tag e) (ident e) (classes e)
          (if existsb (Nat.eqb (nid e)) ids then <[k := v]> (attrs e)
           else attrs e)
          (value e) (text e)
          (map (set_attr ids k v) (children e)).

(** The first non-empty list of a list of lists. *)
Fixpoint first_nonempty {A} (ps : list (list A)) : list A :=
  match ps with
  | [] => []
  | [] :: rest => first_nonempty rest
  | p :: _ => p
  end.

(** The way from [e] down to the node with identity [n] (the first one in
    document order, as for [find_node]): [e] first, that node last; empty
    when [e] holds no such node. *)
Fixpoint path_to (n : nat) (e : element) : list element :=
  if Nat.eqb (nid e) n then [e]
  else match first_nonempty (map (path_to n) (children e)) with
       | [] => []
       | p => e :: p
       end.

(** The ancestors of the node with identity [n], the parent first and the
    root of the page last. *)
Definition ancestors (n : nat) (d : element) : list element :=
  tl (rev (path_to n d)).

(** The nodes an event dispatched on [target] visits while it bubbles: the
    target, then its ancestors from the parent up to the root.  The path is
    fixed when the event is dispatched. *)
Definition event_path (target : element) (d : element) : list element :=
  target :: ancestors (nid target) d.





End Dom.

(* ===================================================================== *)
(** ** JavaScript values *)
(* ===================================================================== *)

Module Js.

#[local] Unset Elimination Schemes.
Inductive value : Type :=
| Null
| Bool (b : bool)
| Num (n : Z)
| Str (s : string)
| Arr (l : list value)
| Obj (m : gmap string value).
#[local] Set Elimination Schemes.

(** An object literal [{k1: v1, ..., kn: vn}]. *)
Definition object (l : list (string * value)) : gmap string value :=
  list_to_map l.

End Js.

(* ===================================================================== *)
(** ** The script *)
(* ===================================================================== *)

Module DataTables.
Import Dom.

(** An options object: property names to values. *)
Abbreviation options := (gmap string Js.value).

(** *** The options object (lines 16-79 of the source) *)

(** The object literal [optionTable] starts from. *)
Definition optionTable_literal : options :=
  Js.object
    [ ("bPaginate", Js.Bool false);
      ("bLengthChange", Js.Bool false);
      ("bFilter", Js.Bool false);
      ("bSort", Js.Bool true);
      ("bInfo", Js.Bool false);
      ("bAutoWidth", Js.Bool false);
      ("sDom", Js.Str ("<" +:+ dq +:+ "table-wrapper" +:+ dq +:+ "t>"));
      ("bRetrieve", Js.Bool true);
      ("asSorting", Js.Bool true);
      ("bServerSide", Js.Bool false);
      ("bSearchable", Js.Bool true);
      ("aaSorting", Js.Arr []);
      ("iDisplayLength", Js.Num 50);
      ("bStateSave", Js.Bool true) ].

(** The layout string both branches assign:
    [<"top"flip><"table-wrapper"t><"bottom"pi>]. *)
Definition sDom_tools : string :=
  "<" +:+ dq +:+ "top" +:+ dq +:+ "flip><" +:+ dq +:+ "table-wrapper" +:+ dq
      +:+ "t><" +:+ dq +:+ "bottom" +:+ dq +:+ "pi>".

(** The [sLengthMenu] string, concatenated as in the source. *)
Definition sLengthMenu_text : string :=
  "Entries per page<select>" +:+
  ("<option value=" +:+ dq +:+ "10" +:+ dq +:+ ">10</option>") +:+
  ("<option value=" +:+ dq +:+ "25" +:+ dq +:+ ">25</option>") +:+
  ("<option value=" +:+ dq +:+ "50" +:+ dq +:+ ">50</option>") +:+
  ("<option value=" +:+ dq +:+ "100" +:+ dq +:+ ">100</option>") +:+
  ("<option value=" +:+ dq +:+ "-1" +:+ dq +:+ ">All</option>") +:+
  "</select>".

(** The body of [if ($(this).hasClass('tools-js'))]. *)
Definition tools_branch (optionTable : options) : options :=
  let optionTable := <["bPaginate" := Js.Bool true]> optionTable in
  let optionTable := <["bLengthChange" := Js.Bool true]> optionTable in
  let optionTable := <["bInfo" := Js.Bool true]> optionTable in
  let optionTable := <["bFilter" := Js.Bool true]> optionTable in
  let optionTable :=
    <["oLanguage" :=
        Js.Obj (Js.object [ ("sSearch", Js.Str EmptyString);
                            ("sLengthMenu", Js.Str sLengthMenu_text) ])]>
      optionTable in
  <["sDom" := Js.Str sDom_tools]> optionTable.

(** The body of [if ($(this).hasClass('input-js'))]. *)
Definition input_branch (optionTable : options) : options :=
  let optionTable := <["bFilter" := Js.Bool true]> optionTable in
  let optionTable :=
    <["oLanguage" := Js.Obj (Js.object [ ("sSearch", Js.Str EmptyString) ])]>
      optionTable in
  <["sDom" := Js.Str sDom_tools]> optionTable.

(** One step of the header loop: [colList.push(...)]. *)
Definition push_column (colList : list Js.value) (th : element)
  : list Js.value :=
  if negb (hasClass "no-tablesorter-js" th)
  then colList ++ [Js.Null]
  else colList ++ [Js.Obj (Js.object [ ("bSortable", Js.Bool false) ])].

(** [$('> thead th', this).each(...)], starting from [colList = []]. *)
Definition column_list (this : element) : list Js.value :=
  fold_left push_column (select_child_descendant "thead" "th" this) [].

(** The options object passed to the widget for the table [this]. *)
Definition build_options (this : element) : options :=
  let optionTable := optionTable_literal in
  let optionTable :=
    if hasClass "tools-js" this then tools_branch optionTable
    else optionTable in
  let optionTable :=
    if hasClass "input-js" this then input_branch optionTable
    else optionTable in
  <["aoColumns" := Js.Arr (column_list this)]> optionTable.

(** *** The world the script runs in *)

(** What the script makes happen outside of the page tree: calls into its
    dependencies and focus requests. *)
Inductive event : Type :=
| CallDataTable (this : element) (optionTable : options)
| CallCodeBaseBranchOverview
| CallFnFilter (oTable : nat) (sInput : string)
| Focus (target : nat).

Section Script.

(** [L] is whatever state the dependencies keep for themselves. *)
Context {L : Type}.

(** The dependencies injected by [define(['datatables-plugin','helpers'], ...)].
    Each may change its own state and the page.
    - [plugin_dataTable this optionTable]: [$(this).dataTable(optionTable)];
      the object it returns is the widget of the table [this], identified
      here by the identity of that table;
    - [plugin_fnFilter oTable sInput]: [oTable.fnFilter(sInput)];
    - [helpers_codeBaseBranchOverview]: the helper of the builders page. *)
Record deps : Type :=
  Deps {
    plugin_dataTable : element -> options -> L -> element -> L * element;
    plugin_fnFilter : nat -> string -> L -> element -> L * element;
    helpers_codeBaseBranchOverview : L -> element -> L * element
  }.

(** The browser state: the dependencies' state, the page, the query string
    [window.location.search], and the keydown handlers this script has bound,
    oldest first, each as (node it is bound to, [oTable] it closes over). *)
Record world : Type :=
  World {
    lib : L;
    page : element;
    location_search : string;
    keydown_handlers : list (nat * nat)
  }.

(** Computations: they read and change the world and emit events. *)
Definition M (A : Type) : Type := world -> A * world * list event.

Definition ret {A} (a : A) : M A := fun w => (a, w, []).

Definition result {A} (r : A * world * list event) : A := fst (fst r).
Definition final {A} (r : A * world * list event) : world := snd (fst r).
Definition emitted {A} (r : A * world * list event) : list event := snd r.

Definition bind {A B} (m : M A) (k : A -> M B) : M B :=
  fun w =>
    let r1 := m w in
    let r2 := k (result r1) (final r1) in
    (result r2, final r2, emitted r1 ++ emitted r2).

End Script.

Arguments deps : clear implicits.
Arguments world : clear implicits.
Arguments M : clear implicits.

Declare Scope script_scope.
Delimit Scope script_scope with script.
Notation "x <- m ;; k" := (bind m (fun x => k))
  (at level 100, m at next level, k at level 200, right associativity)
  : script_scope.
Notation "m ;; k" := (bind m (fun _ => k))
  (at level 100, k at level 200, right associativity) : script_scope.

(** *** [init] (lines 7-98 of the source) *)

Section Init.

Context {L : Type} (D : deps L).
Local Open Scope script_scope.

(** A jQuery selection over the current page. *)
Definition jq_select (selector : element -> list element)
  : M L (list element) :=
  fun w => (selector (page w), w, []).

(** The node a reference denotes, as it stands now. *)
Definition node_now (r : element) : M L element :=
  fun w => (deref r (page w), w, []).

Definition window_location_search : M L string :=
  fun w => (location_search w, w, []).

(** [$(this).dataTable(optionTable)] *)
Definition dataTable (this : element) (optionTable : options) : M L nat :=
  fun w =>
    let r := plugin_dataTable D this optionTable (lib w) (page w) in
    (nid this,
     World (fst r) (snd r) (location_search w) (keydown_handlers w),
     [CallDataTable this optionTable]).

(** [helpers.codeBaseBranchOverview()] *)
Definition codeBaseBranchOverview : M L unit :=
  fun w =>
    let r := helpers_codeBaseBranchOverview D (lib w) (page w) in
    (tt,
     World (fst r) (snd r) (location_search w) (keydown_handlers w),
     [CallCodeBaseBranchOverview]).

(** [oTable.fnFilter(sInput)] *)
Definition fnFilter (oTable : nat) (sInput : string) : M L unit :=
  fun w =>
    let r := plugin_fnFilter D oTable sInput (lib w) (page w) in
    (tt,
     World (fst r) (snd r) (location_search w) (keydown_handlers w),
     [CallFnFilter oTable sInput]).

(** [sel.attr(k, v)] *)
Definition jq_attr (sel : list element) (k v : string) : M L unit :=
  fun w =>
    (tt,
     World (lib w) (set_attr (map nid sel) k v (page w))
           (location_search w) (keydown_handlers w),
     []).

(** [sel.focus()]: every element of the selection is asked to take focus. *)
Definition jq_focus (sel : list element) : M L unit :=
  fun w => (tt, w, map (fun e => Focus (nid e)) sel).

(** [sel.keydown(function (event) { oTable.fnFilter($(this).val()); })]:
    the handler is bound to every element of the selection. *)
Definition jq_keydown (sel : list element) (oTable : nat) : M L unit :=
  fun w =>
    (tt,
     World (lib w) (page w) (location_search w)
           (keydown_handlers w ++ map (fun e => (nid e, oTable)) sel),
     []).

(** [sel.each(f)] *)
Fixpoint jq_each {A} (sel : list A) (f : A -> M L unit) : M L unit :=
  match sel with
  | [] => ret tt
  | this :: rest => f this ;; jq_each rest f
  end.

(** [$('.dataTables_filter input')] *)
Definition filter_inputs (d : element) : list element :=
  select_class_descendant "dataTables_filter" "input" false d.

(** The callback of [tablesorterEl.each], for the table referred to by
    [this0], in its two halves. *)

(** Lines 14-82: build the options and instantiate the widget. *)
Definition widget_setup (this0 : element) : M L nat :=
  this <- node_now this0 ;;
  let optionTable := build_options this in
  dataTable this optionTable.

(** Lines 84-95: the builders-page helper and the filter inputs. *)
Definition filter_wiring (oTable : nat) : M L unit :=
  filterTableInput <- jq_select filter_inputs ;;
  builders_page <- jq_select (select_id "builders_page") ;;
  search <- window_location_search ;;
  (if negb (Nat.eqb (length builders_page) 0)
      && negb (String.eqb search EmptyString)
   then codeBaseBranchOverview
   else ret tt) ;;
  jq_attr filterTableInput "placeholder" "Filter results" ;;
  jq_focus filterTableInput ;;
  jq_keydown filterTableInput oTable.

Definition each_table (this0 : element) : M L unit :=
  oTable <- widget_setup this0 ;;
  filter_wiring oTable.

Definition init : M L unit :=
  tablesorterEl <- jq_select (select_class "tablesorter-js") ;;
  jq_each tablesorterEl each_table.

(** *** Key presses *)

(** The handler bound at line 93, run for a keydown on the node [this0]. *)
Definition keydown_handler (oTable : nat) (this0 : element) : M L unit :=
  this <- node_now this0 ;;
  fnFilter oTable (value this).

(** The handlers bound to a node, oldest first. *)
Definition handlers_of (n : nat) (w : world L) : list nat :=
  map snd (List.filter (fun h => Nat.eqb (fst h) n) (keydown_handlers w)).

(** The event reaches the node [this0]: the handlers bound to that node run
    in the order they were bound, with [this] being that node. *)
Definition dispatch_at (this0 : element) : M L unit :=
  bound <- (fun w => (handlers_of (nid this0) w, w, [])) ;;
  jq_each bound (fun oTable => keydown_handler oTable this0).

(** A keydown event on [target].  The event bubbles: it reaches the target
    first and then every ancestor of the target, the parent first.  The
    handler of line 93 neither stops the propagation nor returns [false]. *)
Definition keydown (target : element) : M L unit :=
  path <- jq_select (event_path target) ;;
  jq_each path dispatch_at.

End Init.

(** *** Vocabulary of the statements *)

(** The tables the widget was instantiated on, in call order. *)
Definition widget_targets (evs : list event) : list element :=
  flat_map (fun ev => match ev with
                      | CallDataTable this _ => [this]
                      | _ => []
                      end) evs.

(** How often the builders-page helper was called. *)
Definition helper_calls (evs : list event) : nat :=
  length (List.filter (fun ev => match ev with
                                 | CallCodeBaseBranchOverview => true
                                 | _ => false
                                 end) evs).

(** The nodes that were asked to take focus, in order. *)
Definition focus_targets (evs : list event) : list nat :=
  flat_map (fun ev => match ev with
                      | Focus n => [n]
                      | _ => []
                      end) evs.

(** The calls of [fnFilter], in order: which widget, with which text. *)
Definition filter_calls (evs : list event) : list (nat * string) :=
  flat_map (fun ev => match ev with
                      | CallFnFilter oTable sInput => [(oTable, sInput)]
                      | _ => []
                      end) evs.

(** What a node is apart from its children and its placeholder: identity,
    tag, id, classes, the other attributes, value and text. *)
Definition node_data (e : element)
  : nat * string * option string * list string * gmap string string
    * string * string :=
  (nid e, tag e, ident e, classes e, delete "placeholder" (attrs e),
   value e, text e).

(** The property names the script ever assigns in an options object. *)
Definition option_keys : list string :=
  [ "bPaginate"; "bLengthChange"; "bFilter"; "bSort"; "bInfo"; "bAutoWidth";
    "sDom"; "bRetrieve"; "asSorting"; "bServerSide"; "bSearchable";
    "aaSorting"; "iDisplayLength"; "bStateSave"; "oLanguage"; "aoColumns" ].


(** The handlers that bind every input of [inputs] to every table of
    [tables], table by table. *)
Definition handler_pairs (tables inputs : list element) : list (nat * nat) :=
  flat_map (fun t => map (fun i => (nid i, nid t)) inputs) tables.

(** [$('#i').length] is not zero. *)
Definition has_id (i : string) (d : element) : bool :=
  negb (Nat.eqb (length (select_id i d)) 0).

(** The test of line 87, on the world in which it is evaluated. *)
Definition helper_due {L} (w : world L) : bool :=
  has_id "builders_page" (page w)
  && negb (String.eqb (location_search w) EmptyString).

Section Assumptions.

Context {L : Type} (D : deps L).

(** The calls [init] delegates leave the page tree as it is. *)
Definition quiet : Prop :=
  (forall this o l d, snd (plugin_dataTable D this o l d) = d)
  /\ (forall l d, snd (helpers_codeBaseBranchOverview D l d) = d).

(** The delegated calls neither add nor remove the builders-page element. *)
Definition keeps_builders_page : Prop :=
  (forall this o l d,
      has_id "builders_page" (snd (plugin_dataTable D this o l d))
      = has_id "builders_page" d)
  /\ (forall l d,
      has_id "builders_page" (snd (helpers_codeBaseBranchOverview D l d))
      = has_id "builders_page" d).


End Assumptions.

(** *** Reading the options *)

(** The entry a header cell is meant to get in [aoColumns]: sorting switched
    off for a cell marked [no-tablesorter-js], nothing said otherwise. *)
Definition column_entry (th : element) : Js.value :=
  if hasClass "no-tablesorter-js" th
  then Js.Obj {[ "bSortable" := Js.Bool false ]}
  else Js.Null.

(** One [<option value="v">label</option>] of a length menu. *)
Definition render_option (o : string * string) : string :=
  "<option value=" +:+ dq +:+ fst o +:+ dq +:+ ">" +:+ snd o +:+ "</option>".

(** A length menu offering the given (value, label) options, in order. *)
Definition render_length_menu (os : list (string * string)) : string :=
  "Entries per page<select>"
    +:+ String.concat EmptyString (map render_option os)
    +:+ "</select>".

(** The feature letters of an [sDom] layout string: everything outside the
    quoted class names and the angle brackets.  The widget reads [l] as the
    length menu, [f] as the filter input, [i] as the info line, [p] as the
    pagination control and [t] as the table. *)
Fixpoint sDom_features (quoted : bool) (s : string) : list ascii :=
  match s with
  | EmptyString => []
  | String c s' =>
      if Ascii.eqb c (ascii_of_nat 34) then sDom_features (negb quoted) s'
      else if quoted then sDom_features true s'
      else if Ascii.eqb c "<"%char || Ascii.eqb c ">"%char
           then sDom_features false s'
           else c :: sDom_features false s'
  end.

End DataTables.

(* ===================================================================== *)
(** ** Example pages *)
(* ===================================================================== *)

Module Examples.
Import Dom DataTables.

Definition el (n : nat) (t : string) (c : list string)
    (ch : list element) : element :=
  Element n t None c ∅ EmptyString EmptyString ch.

Definition cell (n : nat) (t : string) (c : list string)
    (x : string) : element :=
  Element n t None c ∅ EmptyString x [].

(** A table with two header cells, the second one excluded from sorting,
    and one row. *)
Definition table (n : nat) (c : list string) : element :=
  el n "table" c
    [ el (n + 1) "thead" []
        [ el (n + 2) "tr" []
            [ cell (n + 3) "th" [] "Builder";
              cell (n + 4) "th" ["no-tablesorter-js"] "Status" ] ];
      el (n + 5) "tbody" []
        [ el (n + 6) "tr" []
            [ cell (n + 7) "td" [] "runtests";
              cell (n + 8) "td" [] "idle" ] ] ].

Definition table_plain : element := table 10 ["tablesorter-js"].
Definition table_tools : element := table 20 ["tablesorter-js"; "tools-js"].
Definition table_input : element := table 30 ["tablesorter-js"; "input-js"].
Definition table_both : element :=
  table 40 ["tablesorter-js"; "tools-js"; "input-js"].
Definition table_other : element := table 50 ["summary"].

(** A builders page with the five tables. *)
Definition builders : element :=
  el 0 "body" []
    [ Element 1 "div" (Some "builders_page") [] ∅ EmptyString EmptyString [];
      table_plain; table_tools; table_input; table_both; table_other ].

(** Dependencies that do nothing at all. *)
Definition idle_deps : deps unit :=
  Deps (fun _ _ l d => (l, d)) (fun _ _ l d => (l, d)) (fun l d => (l, d)).

(** The filter box a widget adds to the page, and the text input in it. *)
Definition filter_input (this : element) : element :=
  Element (1001 + nid this) "input" None [] ∅ "build" EmptyString [].

Definition filter_box (this : element) : element :=
  el (1000 + nid this) "div" ["dataTables_filter"] [ filter_input this ].

(** The same input once the script has given it its placeholder. *)
Definition wired_input (this : element) : element :=
  Element (1001 + nid this) "input" None []
          {[ "placeholder" := "Filter results" ]} "build" EmptyString [].

Definition append_child (c : element) (d : element) : element :=
  Element (nid d) (tag d) (ident d) (classes d) (attrs d) (value d) (text d)
          (children d ++ [c]).

(** A stand-in for the widget plugin: instantiating a widget with filtering
    enabled adds a filter box to the page; nothing else changes. *)
Definition widget_deps : deps unit :=
  Deps (fun this o l d =>
          match o !! "bFilter" with
          | Some (Js.Bool true) => (l, append_child (filter_box this) d)
          | _ => (l, d)
          end)
       (fun _ _ l d => (l, d))
       (fun l d => (l, d)).

Definition builders_world : world unit :=
  World tt builders "?codebase=katana" [].

(** A page with one selected table and a filter box that is already there. *)
Definition page_with_filter_box : element :=
  el 0 "body" [] [ table_plain; filter_box table_plain ].

Definition filter_box_world : world unit :=
  World tt page_with_filter_box EmptyString [].

(** A builders page without any table. *)
Definition page_without_tables : element :=
  el 0 "body" []
    [ Element 1 "div" (Some "builders_page") [] ∅ EmptyString EmptyString [] ].

Definition no_tables_world : world unit :=
  World tt page_without_tables "?codebase=katana" [].

(** A selected table that has a body but no header. *)
Definition table_bare : element :=
  el 60 "table" ["tablesorter-js"; "tools-js"]
    [ el 61 "tbody" []
        [ el 62 "tr" []
            [ cell 63 "th" [] "total"; cell 64 "td" [] "12" ] ] ].

Definition bare_world : world unit :=
  World tt (el 0 "body" [] [ table_bare ]) EmptyString [].

(** A table with the same classes and the same kind of header cells as
    [table_tools], and otherwise different: other nodes, other texts, other
    rows. *)
Definition table_reports : element :=
  Element 80 "table" (Some "reports") ["tools-js"; "tablesorter-js"] ∅
          EmptyString EmptyString
    [ el 81 "thead" []
        [ el 82 "tr" []
            [ cell 83 "th" ["wide"] "Revision";
              cell 84 "th" ["no-tablesorter-js"; "wide"] "When" ] ];
      el 85 "tbody" []
        [ el 86 "tr" [] [ cell 87 "td" [] "r101"; cell 88 "td" [] "Mon" ];
          el 89 "tr" [] [ cell 90 "td" [] "r102"; cell 91 "td" [] "Tue" ] ] ].

Definition reports_world : world unit :=
  World tt (el 0 "body" [] [ table_tools; table_reports ]) EmptyString [].

(** A page on which the widgets are already there: two selected tables and
    the filter boxes of both. *)
Definition revisited_world : world unit :=
  World tt
    (el 0 "body" []
       [ table_tools; filter_box table_tools;
         table_input; filter_box table_input ])
    "?codebase=katana" [ (7, 7) ].


(** A page whose filter box holds a text input inside a text input. *)
Definition inner_input : element :=
  Element 1013 "input" None [] ∅ "inner" EmptyString [].

Definition outer_input : element :=
  Element 1012 "input" None [] ∅ "outer" EmptyString [ inner_input ].

Definition nested_world : world unit :=
  World tt
    (el 0 "body" []
       [ table_plain; el 1010 "div" ["dataTables_filter"] [ outer_input ] ])
    EmptyString [].

End Examples.

(* ===================================================================== *)
(** ** Facts about the page *)
(* ===================================================================== *)

Module DomFacts.
Import Dom.

Lemma find_map_invariant {A} (p : A -> bool) (f : A -> A) (l : list A) :
  (forall a, p (f a) = p a) ->
  List.find p (map f l) = option_map f (List.find p l).
Proof.
  intros Hp. induction l as [|a l IH]; simpl; [reflexivity|].
  rewrite Hp. destruct (p a); [reflexivity | exact IH].
Qed.

Lemma filter_map_invariant {A} (p : A -> bool) (f : A -> A) (l : list A) :
  (forall a, p (f a) = p a) ->
  List.filter p (map f l) = map f (List.filter p l).
Proof.
  intros Hp. induction l as [|a l IH]; simpl; [reflexivity|].
  rewrite Hp. destruct (p a); simpl; congruence.
Qed.

Lemma flat_map_map_children {B} (f : element -> element)
    (g : element -> list B) (h : element -> list B) (ch : list element) :
  Forall (fun c => g (f c) = h c) ch ->
  flat_map g (map f ch) = flat_map h ch.
Proof.
  induction 1 as [|c ch Hc _ IH]; simpl; [reflexivity|].
  rewrite Hc, IH. reflexivity.
Qed.

Lemma nid_deref (r d : element) : nid (deref r d) = nid r.
Proof.
  unfold deref, find_node.
  destruct (List.find _ _) as [e|] eqn:E; [|reflexivity].
  apply find_some in E as [_ E]. apply Nat.eqb_eq in E. exact E.
Qed.

Section SetAttr.

Variables (ids : list nat) (k v : string).

Lemma set_attr_nid e : nid (set_attr ids k v e) = nid e.
Proof. destruct e; reflexivity. Qed.


Lemma hasClass_set_attr c e : hasClass c (set_attr ids k v e) = hasClass c e.
Proof. destruct e; reflexivity. Qed.


Lemma hasId_set_attr i e : hasId i (set_attr ids k v e) = hasId i e.
Proof. destruct e; reflexivity. Qed.

Lemma attrs_set_attr e :
  existsb (Nat.eqb (nid e)) ids = true ->
  attrs (set_attr ids k v e) !! k = Some v.
Proof.
  destruct e; simpl. intros ->. apply lookup_insert_eq.
Qed.

Lemma elements_set_attr e :
  elements (set_attr ids k v e) = map (set_attr ids k v) (elements e).
Proof.
  induction e as [n t i c a x y ch IH] using element_tree_ind.
  simpl. f_equal.
  induction IH as [|e ch He _ IHch]; simpl; [reflexivity|].
  rewrite map_app, He, IHch. reflexivity.
Qed.

Lemma select_class_descendant_set_attr c t inside e :
  select_class_descendant c t inside (set_attr ids k v e)
  = map (set_attr ids k v) (select_class_descendant c t inside e).
Proof.
  revert inside.
  induction e as [n g i cl a x y ch IH] using element_tree_ind.
  intros inside. simpl. rewrite map_app. f_equal.
  - unfold hasTag; simpl. destruct (inside && _); reflexivity.
  - unfold hasClass; simpl.
    generalize (inside || existsb (String.eqb c) cl). intros b.
    induction IH as [|e ch He _ IHch]; simpl; [reflexivity|].
    rewrite map_app, He, IHch. reflexivity.
Qed.

Lemma select_id_set_attr i d :
  select_id i (set_attr ids k v d) = map (set_attr ids k v) (select_id i d).
Proof.
  unfold select_id. rewrite elements_set_attr.
  rewrite find_map_invariant by apply hasId_set_attr.
  destruct (List.find _ _); reflexivity.
Qed.

Lemma find_node_set_attr n d :
  find_node n (set_attr ids k v d)
  = option_map (set_attr ids k v) (find_node n d).
Proof.
  unfold find_node. rewrite elements_set_attr.
  apply find_map_invariant. intros a. rewrite set_attr_nid. reflexivity.
Qed.




Lemma set_attr_idem e :
  set_attr ids k v (set_attr ids k v e) = set_attr ids k v e.
Proof.
  induction e as [n t i c a x y ch IH] using element_tree_ind.
  simpl. f_equal.
  - destruct (existsb _ ids); [apply insert_insert_eq | reflexivity].
  - rewrite map_map.
    induction IH as [|e ch He _ IHch]; simpl; congruence.
Qed.

End SetAttr.

End DomFacts.

(* ===================================================================== *)
(** ** Facts about the script *)
(* ===================================================================== *)

Module ScriptFacts.
Import Dom DataTables DomFacts.

Section Facts.

Context {L : Type} (D : deps L).

(** **** Sequencing *)

Lemma jq_each_cons {A} (a : A) (l : list A) (f : A -> M L unit) w :
  final (jq_each (a :: l) f w) = final (jq_each l f (final (f a w)))
  /\ emitted (jq_each (a :: l) f w)
     = emitted (f a w) ++ emitted (jq_each l f (final (f a w))).
Proof. split; reflexivity. Qed.

Lemma jq_each_app {A} (l1 l2 : list A) (f : A -> M L unit) w :
  final (jq_each (l1 ++ l2) f w)
  = final (jq_each l2 f (final (jq_each l1 f w)))
  /\ emitted (jq_each (l1 ++ l2) f w)
     = emitted (jq_each l1 f w)
         ++ emitted (jq_each l2 f (final (jq_each l1 f w))).
Proof.
  revert w. induction l1 as [|a l1 IH]; intros w.
  - split; reflexivity.
  - destruct (IH (final (f a w))) as [IHf IHe].
    change ((a :: l1) ++ l2) with (a :: (l1 ++ l2)).
    destruct (jq_each_cons a (l1 ++ l2) f w) as [-> ->].
    destruct (jq_each_cons a l1 f w) as [-> ->].
    rewrite IHf, IHe, app_assoc. split; reflexivity.
Qed.

Lemma init_unfold w :
  final (init D w)
  = final (jq_each (select_class "tablesorter-js" (page w)) (each_table D) w)
  /\ emitted (init D w)
     = emitted (jq_each (select_class "tablesorter-js" (page w))
                        (each_table D) w).
Proof. split; reflexivity. Qed.

(** **** One table *)

Lemma widget_setup_emitted t w :
  emitted (widget_setup D t w)
  = [CallDataTable (deref t (page w)) (build_options (deref t (page w)))].
Proof. reflexivity. Qed.

Lemma widget_setup_result t w : result (widget_setup D t w) = nid t.
Proof. apply nid_deref. Qed.

Lemma widget_setup_final t w :
  final (widget_setup D t w)
  = let this := deref t (page w) in
    let r := plugin_dataTable D this (build_options this) (lib w) (page w) in
    World (fst r) (snd r) (location_search w) (keydown_handlers w).
Proof. reflexivity. Qed.

Lemma filter_wiring_emitted o w :
  emitted (filter_wiring D o w)
  = (if helper_due w then [CallCodeBaseBranchOverview] else [])
      ++ map (fun e => Focus (nid e)) (filter_inputs (page w)).
Proof.
  unfold filter_wiring, helper_due, has_id, bind, jq_select,
    window_location_search. simpl.
  destruct (negb _ && negb _);
    simpl; rewrite ?app_nil_r; reflexivity.
Qed.

Lemma filter_wiring_handlers o w :
  keydown_handlers (final (filter_wiring D o w))
  = keydown_handlers w ++ map (fun e => (nid e, o)) (filter_inputs (page w)).
Proof.
  unfold filter_wiring, bind, jq_select, window_location_search. simpl.
  destruct (negb _ && negb _);
    reflexivity.
Qed.

Lemma filter_wiring_search o w :
  location_search (final (filter_wiring D o w)) = location_search w.
Proof.
  unfold filter_wiring, bind, jq_select, window_location_search. simpl.
  destruct (negb _ && negb _);
    reflexivity.
Qed.

Lemma filter_wiring_page o w :
  page (final (filter_wiring D o w))
  = set_attr (map nid (filter_inputs (page w))) "placeholder" "Filter results"
      (if helper_due w
       then snd (helpers_codeBaseBranchOverview D (lib w) (page w))
       else page w).
Proof.
  unfold filter_wiring, helper_due, has_id, bind, jq_select,
    window_location_search. simpl.
  destruct (negb _ && negb _);
    reflexivity.
Qed.

Lemma each_table_final t w :
  final (each_table D t w)
  = final (filter_wiring D (nid t) (final (widget_setup D t w))).
Proof.
  change (final (each_table D t w))
    with (final (filter_wiring D (result (widget_setup D t w))
                   (final (widget_setup D t w)))).
  rewrite widget_setup_result. reflexivity.
Qed.

Lemma each_table_emitted t w :
  emitted (each_table D t w)
  = CallDataTable (deref t (page w)) (build_options (deref t (page w)))
      :: emitted (filter_wiring D (nid t) (final (widget_setup D t w))).
Proof.
  change (emitted (each_table D t w))
    with (emitted (widget_setup D t w)
            ++ emitted (filter_wiring D (result (widget_setup D t w))
                          (final (widget_setup D t w)))).
  rewrite widget_setup_result. reflexivity.
Qed.


(** **** The events of the loop *)

Lemma in_widget_targets this evs :
  In this (widget_targets evs) <-> exists o, In (CallDataTable this o) evs.
Proof.
  unfold widget_targets. rewrite in_flat_map. split.
  - intros [ev [Hin Hev]]. destruct ev; simpl in Hev; try tauto.
    destruct Hev as [->|[]]. eauto.
  - intros [o Hin]. exists (CallDataTable this o). simpl. auto.
Qed.

Lemma widget_targets_app evs1 evs2 :
  widget_targets (evs1 ++ evs2) = widget_targets evs1 ++ widget_targets evs2.
Proof. apply flat_map_app. Qed.

Lemma widget_targets_focus (sel : list element) :
  widget_targets (map (fun e => Focus (nid e)) sel) = [].
Proof. induction sel; simpl; auto. Qed.

Lemma widget_targets_each_table t w :
  widget_targets (emitted (each_table D t w)) = [deref t (page w)].
Proof.
  rewrite each_table_emitted, filter_wiring_emitted.
  change (widget_targets (?c :: ?r)) with (widget_targets [c] ++ widget_targets r).
  rewrite widget_targets_app, widget_targets_focus.
  destruct (helper_due _); reflexivity.
Qed.

Lemma loop_targets l w :
  map nid (widget_targets (emitted (jq_each l (each_table D) w))) = map nid l.
Proof.
  revert w. induction l as [|t l IH]; intros w; [reflexivity|].
  destruct (jq_each_cons t l (each_table D) w) as [_ ->].
  rewrite widget_targets_app, map_app, IH, widget_targets_each_table.
  simpl. rewrite nid_deref. reflexivity.
Qed.

Lemma each_table_events t w ev :
  In ev (emitted (each_table D t w)) ->
  ev = CallDataTable (deref t (page w)) (build_options (deref t (page w)))
  \/ ev = CallCodeBaseBranchOverview
  \/ exists n, ev = Focus n.
Proof.
  rewrite each_table_emitted, filter_wiring_emitted.
  intros [<-|Hin]; [auto|]. apply in_app_or in Hin as [Hin|Hin].
  - destruct (helper_due _); simpl in Hin; [|tauto].
    destruct Hin as [<-|[]]. auto.
  - apply in_map_iff in Hin as [e [<- _]]. eauto.
Qed.

Lemma loop_calls_built l w this o :
  In (CallDataTable this o) (emitted (jq_each l (each_table D) w)) ->
  o = build_options this.
Proof.
  revert w. induction l as [|t l IH]; intros w; [intros []|].
  destruct (jq_each_cons t l (each_table D) w) as [_ ->].
  intros Hin. apply in_app_or in Hin as [Hin|Hin]; [|eauto].
  apply each_table_events in Hin as [H|[H|[n H]]]; congruence.
Qed.

Lemma calls_built w this o :
  In (CallDataTable this o) (emitted (init D w)) -> o = build_options this.
Proof.
  destruct (init_unfold w) as [_ ->]. apply loop_calls_built.
Qed.

(** **** The builders-page helper *)

Lemma helper_calls_app evs1 evs2 :
  helper_calls (evs1 ++ evs2) = helper_calls evs1 + helper_calls evs2.
Proof. unfold helper_calls. rewrite List.filter_app. apply length_app. Qed.

Lemma helper_calls_focus (sel : list element) :
  helper_calls (map (fun e => Focus (nid e)) sel) = 0.
Proof. induction sel; simpl; auto. Qed.

Lemma helper_calls_each_table t w :
  helper_calls (emitted (each_table D t w))
  = if helper_due (final (widget_setup D t w)) then 1 else 0.
Proof.
  rewrite each_table_emitted, filter_wiring_emitted.
  change (helper_calls (?c :: ?r)) with (helper_calls r).
  rewrite helper_calls_app, helper_calls_focus.
  destruct (helper_due _); reflexivity.
Qed.

Lemma each_table_search t w :
  location_search (final (each_table D t w)) = location_search w.
Proof. rewrite each_table_final, filter_wiring_search. reflexivity. Qed.

Lemma has_id_set_attr ids k v i d :
  has_id i (set_attr ids k v d) = has_id i d.
Proof.
  unfold has_id. rewrite select_id_set_attr, length_map. reflexivity.
Qed.

Lemma each_table_has_builders_page t w :
  keeps_builders_page D ->
  has_id "builders_page" (page (final (each_table D t w)))
  = has_id "builders_page" (page w)
  /\ helper_due (final (widget_setup D t w)) = helper_due w.
Proof.
  intros [Hp Hh].
  assert (Hw : has_id "builders_page" (page (final (widget_setup D t w)))
               = has_id "builders_page" (page w)).
  { rewrite widget_setup_final. cbv zeta. apply Hp. }
  split.
  - rewrite each_table_final, filter_wiring_page, has_id_set_attr.
    destruct (helper_due _); [rewrite Hh|]; exact Hw.
  - unfold helper_due. rewrite Hw. reflexivity.
Qed.

Lemma loop_helper_calls l w :
  keeps_builders_page D ->
  helper_calls (emitted (jq_each l (each_table D) w))
  = if helper_due w then length l else 0.
Proof.
  intros Hk. revert w. induction l as [|t l IH]; intros w.
  - destruct (helper_due w); reflexivity.
  - destruct (jq_each_cons t l (each_table D) w) as [_ ->].
    rewrite helper_calls_app, IH, helper_calls_each_table.
    destruct (each_table_has_builders_page t w Hk) as [Hb ->].
    unfold helper_due at 2. rewrite Hb, each_table_search.
    fold (helper_due w). destruct (helper_due w); reflexivity.
Qed.

Lemma loop_helper_calls_no_search l w :
  location_search w = EmptyString ->
  helper_calls (emitted (jq_each l (each_table D) w)) = 0.
Proof.
  revert w. induction l as [|t l IH]; intros w Hs; [reflexivity|].
  destruct (jq_each_cons t l (each_table D) w) as [_ ->].
  rewrite helper_calls_app, IH, helper_calls_each_table.
  - unfold helper_due. rewrite widget_setup_final. cbv zeta. simpl.
    rewrite Hs, andb_false_r. reflexivity.
  - rewrite each_table_search. exact Hs.
Qed.


(** **** What the script itself writes to the page *)

Lemma filter_inputs_set_attr ids k v d :
  map nid (filter_inputs (set_attr ids k v d)) = map nid (filter_inputs d).
Proof.
  unfold filter_inputs. rewrite select_class_descendant_set_attr, map_map.
  apply map_ext. apply set_attr_nid.
Qed.

Lemma widget_setup_page t w :
  page (final (widget_setup D t w))
  = snd (plugin_dataTable D (deref t (page w))
           (build_options (deref t (page w))) (lib w) (page w)).
Proof. reflexivity. Qed.

Lemma each_table_page_quiet t w :
  quiet D ->
  page (final (each_table D t w))
  = set_attr (map nid (filter_inputs (page w)))
             "placeholder" "Filter results" (page w).
Proof.
  intros [Hp Hh].
  rewrite each_table_final, filter_wiring_page, widget_setup_page, Hp.
  destruct (helper_due _); [|reflexivity].
  rewrite Hh. reflexivity.
Qed.

Lemma loop_page_quiet l p w :
  quiet D ->
  page w = p
  \/ page w = set_attr (map nid (filter_inputs p))
                       "placeholder" "Filter results" p ->
  page (final (jq_each l (each_table D) w))
  = match l with
    | [] => page w
    | _ :: _ => set_attr (map nid (filter_inputs p))
                         "placeholder" "Filter results" p
    end.
Proof.
  intros Hq. revert w. induction l as [|t l IH]; intros w Hw; [reflexivity|].
  destruct (jq_each_cons t l (each_table D) w) as [-> _].
  assert (Hstep : page (final (each_table D t w))
                  = set_attr (map nid (filter_inputs p))
                             "placeholder" "Filter results" p).
  { rewrite each_table_page_quiet by exact Hq.
    destruct Hw as [->| ->]; [reflexivity|].
    rewrite filter_inputs_set_attr. apply set_attr_idem. }
  rewrite (IH _ (or_intror Hstep)). destruct l; [exact Hstep | reflexivity].
Qed.

(** **** Rows *)




Lemma dispatch_at_unfold this0 w :
  final (dispatch_at D this0 w)
  = final (jq_each (handlers_of (nid this0) w)
                   (fun o => keydown_handler D o this0) w)
  /\ emitted (dispatch_at D this0 w)
     = emitted (jq_each (handlers_of (nid this0) w)
                        (fun o => keydown_handler D o this0) w).
Proof. split; reflexivity. Qed.

Lemma keydown_unfold target w :
  final (keydown D target w)
  = final (jq_each (event_path target (page w)) (dispatch_at D) w)
  /\ emitted (keydown D target w)
     = emitted (jq_each (event_path target (page w)) (dispatch_at D) w).
Proof. split; reflexivity. Qed.



(** **** Handlers *)

Lemma each_table_handlers t w :
  keydown_handlers (final (each_table D t w))
  = keydown_handlers w
      ++ map (fun e => (nid e, nid t))
             (filter_inputs (page (final (widget_setup D t w)))).
Proof. rewrite each_table_final, filter_wiring_handlers. reflexivity. Qed.

Lemma loop_handlers_kept l w h :
  In h (keydown_handlers w) ->
  In h (keydown_handlers (final (jq_each l (each_table D) w))).
Proof.
  revert w. induction l as [|t l IH]; intros w Hin; [exact Hin|].
  destruct (jq_each_cons t l (each_table D) w) as [-> _].
  apply IH. rewrite each_table_handlers. apply in_or_app. auto.
Qed.

Lemma loop_binds pre t post w i :
  In i (filter_inputs
          (page (final (widget_setup D t
                          (final (jq_each pre (each_table D) w)))))) ->
  In (nid i, nid t)
     (keydown_handlers (final (jq_each (pre ++ t :: post) (each_table D) w))).
Proof.
  intros Hin.
  destruct (jq_each_app pre (t :: post) (each_table D) w) as [-> _].
  destruct (jq_each_cons t post (each_table D)
              (final (jq_each pre (each_table D) w))) as [-> _].
  apply loop_handlers_kept. rewrite each_table_handlers.
  apply in_or_app. right.
  apply (in_map (fun e => (nid e, nid t))) in Hin. exact Hin.
Qed.

Lemma handlers_of_in n o (w : world L) :
  In (n, o) (keydown_handlers w) -> In o (handlers_of n w).
Proof.
  intros Hin. unfold handlers_of.
  apply (in_map snd (List.filter _ _) (n, o)).
  apply filter_In. split; [exact Hin|]. simpl. apply Nat.eqb_refl.
Qed.

Lemma keydown_handler_emitted o target w :
  emitted (keydown_handler D o target w)
  = [CallFnFilter o (value (deref target (page w)))].
Proof. reflexivity. Qed.

Lemma keydown_calls target w hs1 o hs2 :
  handlers_of (nid target) w = hs1 ++ o :: hs2 ->
  In (CallFnFilter o
        (value (deref target
                  (page (final (jq_each hs1
                                  (fun o => keydown_handler D o target) w))))))
     (emitted (keydown D target w)).
Proof.
  intros Hs. destruct (keydown_unfold target w) as [_ ->].
  unfold event_path.
  destruct (jq_each_cons target (ancestors (nid target) (page w))
              (dispatch_at D) w) as [_ ->].
  apply in_or_app. left.
  destruct (dispatch_at_unfold target w) as [_ ->]. rewrite Hs.
  destruct (jq_each_app hs1 (o :: hs2)
              (fun o => keydown_handler D o target) w) as [_ ->].
  apply in_or_app. right.
  match goal with
  | |- In _ (emitted (jq_each (o :: hs2) ?f ?w1)) =>
      destruct (jq_each_cons o hs2 f w1) as [_ ->]
  end.
  apply in_or_app. left. rewrite keydown_handler_emitted. left. reflexivity.
Qed.


Lemma filter_wiring_placeholder o w i e :
  In i (filter_inputs (page w)) ->
  find_node (nid i) (page (final (filter_wiring D o w))) = Some e ->
  attrs e !! "placeholder" = Some "Filter results".
Proof.
  intros Hin. rewrite filter_wiring_page, find_node_set_attr.
  destruct (find_node (nid i) _) as [e0|] eqn:Hfind; [|discriminate].
  intros [= <-]. apply attrs_set_attr.
  apply find_some in Hfind as [_ Hid]. apply Nat.eqb_eq in Hid.
  apply existsb_exists. exists (nid i). split.
  - apply in_map. exact Hin.
  - rewrite Hid. apply Nat.eqb_refl.
Qed.

Lemma filter_wiring_focus o w i :
  In i (filter_inputs (page w)) ->
  In (Focus (nid i)) (emitted (filter_wiring D o w)).
Proof.
  intros Hin. rewrite filter_wiring_emitted. apply in_or_app. right.
  apply (in_map (fun e => Focus (nid e))) in Hin. exact Hin.
Qed.

End Facts.

End ScriptFacts.

(* ===================================================================== *)
(** ** Facts about the options object *)
(* ===================================================================== *)

Module OptionFacts.
Import Dom DataTables.

Lemma push_columns ths acc :
  fold_left push_column ths acc = acc ++ map column_entry ths.
Proof.
  revert acc. induction ths as [|th ths IH]; intros acc; simpl.
  - rewrite app_nil_r. reflexivity.
  - rewrite IH. unfold push_column, column_entry.
    destruct (hasClass "no-tablesorter-js" th); simpl;
      rewrite <- app_assoc; reflexivity.
Qed.

Lemma column_list_entries this :
  column_list this
  = map column_entry (select_child_descendant "thead" "th" this).
Proof. unfold column_list. apply push_columns. Qed.

Lemma build_options_aoColumns this :
  build_options this !! "aoColumns" = Some (Js.Arr (column_list this)).
Proof. unfold build_options. apply lookup_insert_eq. Qed.

(** Every other property is as the class branches left it. *)
Lemma build_options_other this k :
  k <> "aoColumns" ->
  build_options this !! k
  = (let o := optionTable_literal in
     let o := if hasClass "tools-js" this then tools_branch o else o in
     if hasClass "input-js" this then input_branch o else o) !! k.
Proof.
  intros Hk. unfold build_options. rewrite lookup_insert_ne by congruence.
  reflexivity.
Qed.

(** The length menu of the source is the menu with the five options. *)
Lemma sLengthMenu_options :
  sLengthMenu_text
  = render_length_menu
      [ ("10", "10"); ("25", "25"); ("50", "50"); ("100", "100");
        ("-1", "All") ].
Proof. reflexivity. Qed.

Lemma sDom_tools_features :
  sDom_features false sDom_tools
  = [ "f"; "l"; "i"; "p"; "t"; "p"; "i" ]%char.
Proof. reflexivity. Qed.

Lemma sDom_plain_features :
  sDom_features false ("<" +:+ dq +:+ "table-wrapper" +:+ dq +:+ "t>")
  = [ "t" ]%char.
Proof. reflexivity. Qed.

End OptionFacts.

(* ===================================================================== *)
(** ** The options passed to the widget *)
(* ===================================================================== *)

Module OptionSpec.
Import Dom DataTables ScriptFacts OptionFacts Examples.

(** C2.  For every table the widget is instantiated on, [aoColumns] is an
    array with exactly one entry per header cell selected by
    ['> thead th'], in document order; entry [i] is [{bSortable: false}]
    when the [i]-th header cell has class [no-tablesorter-js] and [null]
    when it has not. *)
Theorem aoColumns_one_entry_per_header {L} (D : deps L) (w : world L)
    (this : element) (o : options) :
  In (CallDataTable this o) (emitted (init D w)) ->
  exists cols : list Js.value,
    o !! "aoColumns" = Some (Js.Arr cols)
    /\ length cols = length (select_child_descendant "thead" "th" this)
    /\ forall (i : nat) (th : element),
        select_child_descendant "thead" "th" this !! i = Some th ->
        cols !! i
        = Some (if hasClass "no-tablesorter-js" th
                then Js.Obj {[ "bSortable" := Js.Bool false ]}
                else Js.Null).
Proof.
  intros Hcall. apply calls_built in Hcall. subst o.
  exists (column_list this). split; [apply build_options_aoColumns|].
  rewrite column_list_entries. split; [apply length_map|].
  intros i th Hth. rewrite list_lookup_fmap, Hth. reflexivity.
Qed.

Lemma aoColumns_one_entry_per_header_witness :
  In (CallDataTable table_tools (build_options table_tools))
     (emitted (init widget_deps builders_world))
  /\ exists cols : list Js.value,
      build_options table_tools !! "aoColumns" = Some (Js.Arr cols)
      /\ length cols = 2
      /\ cols !! 0 = Some Js.Null
      /\ cols !! 1 = Some (Js.Obj {[ "bSortable" := Js.Bool false ]}).
Proof.
  assert (Hcall : In (CallDataTable table_tools (build_options table_tools))
                     (emitted (init widget_deps builders_world))).
  { apply (nth_error_In _ 2). vm_compute. reflexivity. }
  split; [exact Hcall|].
  destruct (aoColumns_one_entry_per_header widget_deps builders_world
              table_tools (build_options table_tools) Hcall)
    as (cols & Hcols & Hlen & Hentry).
  exists cols. split; [exact Hcols|]. split; [exact Hlen|].
  split; [exact (Hentry 0 _ eq_refl) | exact (Hentry 1 _ eq_refl)].
Defined.

(** C4.  For a table with neither class [tools-js] nor class [input-js], the
    options passed to the widget switch pagination, length change, filtering
    and info off, switch sorting on with an empty initial order, show 50
    entries and save the state. *)
Theorem plain_table_options {L} (D : deps L) (w : world L)
    (this : element) (o : options) :
  In (CallDataTable this o) (emitted (init D w)) ->
  hasClass "tools-js" this = false ->
  hasClass "input-js" this = false ->
  o !! "bPaginate" = Some (Js.Bool false)
  /\ o !! "bLengthChange" = Some (Js.Bool false)
  /\ o !! "bFilter" = Some (Js.Bool false)
  /\ o !! "bInfo" = Some (Js.Bool false)
  /\ o !! "bSort" = Some (Js.Bool true)
  /\ o !! "aaSorting" = Some (Js.Arr [])
  /\ o !! "iDisplayLength" = Some (Js.Num 50)
  /\ o !! "bStateSave" = Some (Js.Bool true).
Proof.
  intros Hcall Htools Hinput. apply calls_built in Hcall. subst o.
  repeat split; rewrite build_options_other by discriminate;
    rewrite Htools, Hinput; reflexivity.
Qed.

Lemma plain_table_options_witness :
  In (CallDataTable table_plain (build_options table_plain))
     (emitted (init widget_deps builders_world))
  /\ hasClass "tools-js" table_plain = false
  /\ hasClass "input-js" table_plain = false
  /\ build_options table_plain !! "bPaginate" = Some (Js.Bool false)
  /\ build_options table_plain !! "iDisplayLength" = Some (Js.Num 50).
Proof.
  assert (Hcall : In (CallDataTable table_plain (build_options table_plain))
                     (emitted (init widget_deps builders_world))).
  { apply (nth_error_In _ 0). vm_compute. reflexivity. }
  split; [exact Hcall|]. split; [reflexivity|]. split; [reflexivity|].
  destruct (plain_table_options widget_deps builders_world table_plain
              (build_options table_plain) Hcall eq_refl eq_refl)
    as (Hp & _ & _ & _ & _ & _ & Hn & _).
  split; [exact Hp | exact Hn].
Defined.

(** C5, as amended.  For a table with class [tools-js], the options switch
    pagination, length change, info and filtering on; and when the table
    does not also have class [input-js], [oLanguage] carries an empty
    search label and a length menu that offers exactly the options 10, 25,
    50, 100 and All (-1). *)
Theorem tools_table_options {L} (D : deps L) (w : world L)
    (this : element) (o : options) :
  In (CallDataTable this o) (emitted (init D w)) ->
  hasClass "tools-js" this = true ->
  o !! "bPaginate" = Some (Js.Bool true)
  /\ o !! "bLengthChange" = Some (Js.Bool true)
  /\ o !! "bInfo" = Some (Js.Bool true)
  /\ o !! "bFilter" = Some (Js.Bool true)
  /\ (hasClass "input-js" this = false ->
      exists lang : gmap string Js.value,
        o !! "oLanguage" = Some (Js.Obj lang)
        /\ lang !! "sSearch" = Some (Js.Str EmptyString)
        /\ lang !! "sLengthMenu"
           = Some (Js.Str (render_length_menu
                             [ ("10", "10"); ("25", "25"); ("50", "50");
                               ("100", "100"); ("-1", "All") ]))).
Proof.
  intros Hcall Htools. apply calls_built in Hcall. subst o.
  repeat split;
    try (rewrite build_options_other by discriminate; rewrite Htools;
         destruct (hasClass "input-js" this); reflexivity).
  intros Hinput. rewrite build_options_other by discriminate.
  rewrite Htools, Hinput. eexists. split; [reflexivity|].
  split; reflexivity.
Qed.

Lemma tools_table_options_witness :
  In (CallDataTable table_tools (build_options table_tools))
     (emitted (init widget_deps builders_world))
  /\ hasClass "tools-js" table_tools = true
  /\ hasClass "input-js" table_tools = false
  /\ build_options table_tools !! "bPaginate" = Some (Js.Bool true)
  /\ exists lang : gmap string Js.value,
      build_options table_tools !! "oLanguage" = Some (Js.Obj lang)
      /\ lang !! "sLengthMenu" = Some (Js.Str sLengthMenu_text).
Proof.
  assert (Hcall : In (CallDataTable table_tools (build_options table_tools))
                     (emitted (init widget_deps builders_world))).
  { apply (nth_error_In _ 2). vm_compute. reflexivity. }
  split; [exact Hcall|]. split; [reflexivity|]. split; [reflexivity|].
  destruct (tools_table_options widget_deps builders_world table_tools
              (build_options table_tools) Hcall eq_refl)
    as (Hp & _ & _ & _ & Hlang).
  split; [exact Hp|].
  destruct (Hlang eq_refl) as (lang & Ho & _ & Hmenu).
  exists lang. split; [exact Ho | exact Hmenu].
Defined.

(** C5 as stated fails: the table with both classes is a [tools-js] table
    the widget is instantiated on, and its [oLanguage] has no length menu. *)
Lemma tools_table_without_length_menu :
  In (CallDataTable table_both (build_options table_both))
     (emitted (init widget_deps builders_world))
  /\ hasClass "tools-js" table_both = true
  /\ exists lang : gmap string Js.value,
      build_options table_both !! "oLanguage" = Some (Js.Obj lang)
      /\ lang !! "sLengthMenu" = None.
Proof.
  split; [apply (nth_error_In _ 9); vm_compute; reflexivity|].
  split; [reflexivity|].
  eexists. split; reflexivity.
Qed.

(** C8.  For a table with both classes [tools-js] and [input-js], the final
    [oLanguage] holds an empty [sSearch] and nothing else, the length menu of
    the [tools-js] branch having been overwritten, while [bLengthChange]
    stays true. *)
Theorem both_classes_options {L} (D : deps L) (w : world L)
    (this : element) (o : options) :
  In (CallDataTable this o) (emitted (init D w)) ->
  hasClass "tools-js" this = true ->
  hasClass "input-js" this = true ->
  o !! "oLanguage" = Some (Js.Obj {[ "sSearch" := Js.Str EmptyString ]})
  /\ ({[ "sSearch" := Js.Str EmptyString ]} : gmap string Js.value)
       !! "sLengthMenu" = None
  /\ tools_branch optionTable_literal !! "oLanguage"
     = Some (Js.Obj (<[ "sSearch" := Js.Str EmptyString ]>
                       {[ "sLengthMenu" := Js.Str sLengthMenu_text ]}))
  /\ o !! "bLengthChange" = Some (Js.Bool true).
Proof.
  intros Hcall Htools Hinput. apply calls_built in Hcall. subst o.
  split; [|split; [reflexivity|split; [reflexivity|]]];
    rewrite build_options_other by discriminate;
    rewrite Htools, Hinput; reflexivity.
Qed.

Lemma both_classes_options_witness :
  In (CallDataTable table_both (build_options table_both))
     (emitted (init widget_deps builders_world))
  /\ hasClass "tools-js" table_both = true
  /\ hasClass "input-js" table_both = true
  /\ build_options table_both !! "oLanguage"
     = Some (Js.Obj {[ "sSearch" := Js.Str EmptyString ]})
  /\ build_options table_both !! "bLengthChange" = Some (Js.Bool true).
Proof.
  assert (Hcall : In (CallDataTable table_both (build_options table_both))
                     (emitted (init widget_deps builders_world))).
  { apply (nth_error_In _ 9). vm_compute. reflexivity. }
  split; [exact Hcall|]. split; [reflexivity|]. split; [reflexivity|].
  destruct (both_classes_options widget_deps builders_world table_both
              (build_options table_both) Hcall eq_refl eq_refl)
    as (Hlang & _ & _ & Hlen).
  split; [exact Hlang | exact Hlen].
Defined.

(** C9.  For a table with class [input-js] and without class [tools-js],
    the options switch filtering on and leave pagination, length change and
    info off, although the layout string [sDom] places the length menu
    ([l]), the info line ([i]) and the pagination control ([p]). *)
Theorem input_table_options {L} (D : deps L) (w : world L)
    (this : element) (o : options) :
  In (CallDataTable this o) (emitted (init D w)) ->
  hasClass "input-js" this = true ->
  hasClass "tools-js" this = false ->
  o !! "bFilter" = Some (Js.Bool true)
  /\ o !! "bPaginate" = Some (Js.Bool false)
  /\ o !! "bLengthChange" = Some (Js.Bool false)
  /\ o !! "bInfo" = Some (Js.Bool false)
  /\ exists layout : string,
      o !! "sDom" = Some (Js.Str layout)
      /\ In "l"%char (sDom_features false layout)
      /\ In "i"%char (sDom_features false layout)
      /\ In "p"%char (sDom_features false layout).
Proof.
  intros Hcall Hinput Htools. apply calls_built in Hcall. subst o.
  repeat split;
    try (rewrite build_options_other by discriminate;
         rewrite Htools, Hinput; reflexivity).
  exists sDom_tools. split.
  - rewrite build_options_other by discriminate.
    rewrite Htools, Hinput. reflexivity.
  - rewrite sDom_tools_features. simpl. tauto.
Qed.

Lemma input_table_options_witness :
  In (CallDataTable table_input (build_options table_input))
     (emitted (init widget_deps builders_world))
  /\ hasClass "input-js" table_input = true
  /\ hasClass "tools-js" table_input = false
  /\ build_options table_input !! "bFilter" = Some (Js.Bool true)
  /\ build_options table_input !! "bPaginate" = Some (Js.Bool false).
Proof.
  assert (Hcall : In (CallDataTable table_input (build_options table_input))
                     (emitted (init widget_deps builders_world))).
  { apply (nth_error_In _ 5). vm_compute. reflexivity. }
  split; [exact Hcall|]. split; [reflexivity|]. split; [reflexivity|].
  destruct (input_table_options widget_deps builders_world table_input
              (build_options table_input) Hcall eq_refl eq_refl)
    as (Hf & Hp & _).
  split; [exact Hf | exact Hp].
Defined.

End OptionSpec.

(* ===================================================================== *)
(** ** What [init] does to the page *)
(* ===================================================================== *)

Module InitSpec.
Import Dom DataTables DomFacts ScriptFacts Examples.

(** The stand-in dependencies satisfy the assumptions the statements make. *)

Lemma idle_deps_quiet : quiet idle_deps.
Proof. split; intros; reflexivity. Qed.

Lemma idle_deps_keeps_builders_page : keeps_builders_page idle_deps.
Proof. split; intros; reflexivity. Qed.



(** C1, as amended.  The widget is instantiated on exactly the elements that
    have class [tablesorter-js] when [init] starts, once each and in document
    order, so an element without the class is never instantiated.  What
    [init] itself writes to the page is the [placeholder] attribute of the
    elements matching ['.dataTables_filter input'], whether or not they have
    the class, and it writes that only when some table was selected. *)
Theorem init_instantiates_selected_tables {L} (D : deps L) (w : world L) :
  map nid (widget_targets (emitted (init D w)))
  = map nid (select_class "tablesorter-js" (page w))
  /\ (forall n : nat,
        (exists this o,
            In (CallDataTable this o) (emitted (init D w)) /\ nid this = n)
        <-> (exists e,
                In e (elements (page w)) /\ nid e = n
                /\ hasClass "tablesorter-js" e = true))
  /\ (quiet D ->
      page (final (init D w))
      = match select_class "tablesorter-js" (page w) with
        | [] => page w
        | _ :: _ => set_attr (map nid (filter_inputs (page w)))
                             "placeholder" "Filter results" (page w)
        end).
Proof.
  destruct (init_unfold D w) as [Hfinal Hemitted].
  assert (Htargets : map nid (widget_targets (emitted (init D w)))
                     = map nid (select_class "tablesorter-js" (page w))).
  { rewrite Hemitted. apply loop_targets. }
  split; [exact Htargets|]. split.
  - intros n. split.
    + intros (this & o & Hin & Hn).
      assert (Hm : In n (map nid (widget_targets (emitted (init D w))))).
      { apply in_map_iff. exists this. split; [exact Hn|].
        apply in_widget_targets. eauto. }
      rewrite Htargets in Hm. apply in_map_iff in Hm as (e & He & Hsel).
      apply filter_In in Hsel as [Hel Hc]. eauto.
    + intros (e & Hel & Hn & Hc).
      assert (Hm : In n (map nid (select_class "tablesorter-js" (page w)))).
      { apply in_map_iff. exists e. split; [exact Hn|].
        apply filter_In. auto. }
      rewrite <- Htargets in Hm. apply in_map_iff in Hm as (this & Ht & Hin).
      apply in_widget_targets in Hin as [o Hin]. eauto.
  - intros Hq. rewrite Hfinal. apply loop_page_quiet; auto.
Qed.

Lemma init_instantiates_selected_tables_witness :
  quiet idle_deps
  /\ map nid (widget_targets (emitted (init idle_deps builders_world)))
     = [10; 20; 30; 40]
  /\ page (final (init idle_deps builders_world)) = builders.
Proof.
  split; [exact idle_deps_quiet|].
  destruct (init_instantiates_selected_tables idle_deps builders_world)
    as (Htargets & _ & Hpage).
  split; [exact Htargets|].
  rewrite (Hpage idle_deps_quiet). vm_compute. reflexivity.
Defined.

(** C1 as stated fails: with dependencies that do nothing, the text input of
    a filter box has no class [tablesorter-js], and [init] gives it a
    [placeholder] attribute. *)
Lemma init_touches_filter_input :
  In (filter_input table_plain) (elements (page filter_box_world))
  /\ hasClass "tablesorter-js" (filter_input table_plain) = false
  /\ find_node 1011 (page filter_box_world) = Some (filter_input table_plain)
  /\ find_node 1011 (page (final (init idle_deps filter_box_world)))
     = Some (wired_input table_plain)
  /\ find_node 1011 (page (final (init idle_deps filter_box_world)))
     <> Some (filter_input table_plain).
Proof.
  assert (Hafter :
    find_node 1011 (page (final (init idle_deps filter_box_world)))
    = Some (wired_input table_plain)).
  { vm_compute. reflexivity. }
  split; [apply (nth_error_In _ 11); vm_compute; reflexivity|].
  split; [reflexivity|]. split; [vm_compute; reflexivity|].
  split; [exact Hafter|].
  rewrite Hafter. intros Heq.
  apply (f_equal (fun o => match o with
                           | Some e => attrs e !! "placeholder"
                           | None => None
                           end)) in Heq.
  vm_compute in Heq. discriminate Heq.
Qed.

(** C6, as amended.  The builders-page helper is called inside the loop over
    the selected tables.  So it is never called when no table is selected
    or when the query string is empty; and, when the delegated calls neither
    add nor remove the [builders_page] element, it is called once for every
    selected table if the page has that element and the query string is not
    empty, and not at all otherwise.  With dependencies that leave the page
    alone, the element is changed by [init] only in that it takes part in
    the [placeholder] write to the filter inputs. *)
Theorem helper_called_once_per_table {L} (D : deps L) (w : world L) :
  (select_class "tablesorter-js" (page w) = [] ->
   helper_calls (emitted (init D w)) = 0)
  /\ (location_search w = EmptyString ->
      helper_calls (emitted (init D w)) = 0)
  /\ (keeps_builders_page D ->
      helper_calls (emitted (init D w))
      = if has_id "builders_page" (page w)
           && negb (String.eqb (location_search w) EmptyString)
        then length (select_class "tablesorter-js" (page w))
        else 0)
  /\ (quiet D ->
      select_id "builders_page" (page (final (init D w)))
      = match select_class "tablesorter-js" (page w) with
        | [] => select_id "builders_page" (page w)
        | _ :: _ =>
            map (set_attr (map nid (filter_inputs (page w)))
                          "placeholder" "Filter results")
                (select_id "builders_page" (page w))
        end).
Proof.
  destruct (init_unfold D w) as [Hfinal Hemitted].
  split; [|split; [|split]].
  - intros Hnone. rewrite Hemitted, Hnone. reflexivity.
  - intros Hsearch. rewrite Hemitted.
    apply loop_helper_calls_no_search, Hsearch.
  - intros Hkeeps. rewrite Hemitted. apply loop_helper_calls, Hkeeps.
  - intros Hq. rewrite Hfinal.
    rewrite (loop_page_quiet D _ (page w) w Hq (or_introl eq_refl)).
    destruct (select_class "tablesorter-js" (page w)); [reflexivity|].
    apply select_id_set_attr.
Qed.

Lemma helper_called_once_per_table_witness :
  keeps_builders_page idle_deps
  /\ quiet idle_deps
  /\ helper_calls (emitted (init idle_deps builders_world)) = 4
  /\ select_id "builders_page" (page (final (init idle_deps builders_world)))
     = select_id "builders_page" builders
  /\ helper_calls (emitted (init idle_deps filter_box_world)) = 0.
Proof.
  split; [exact idle_deps_keeps_builders_page|].
  split; [exact idle_deps_quiet|].
  destruct (helper_called_once_per_table idle_deps builders_world)
    as (_ & _ & Hcount & Hpage).
  destruct (helper_called_once_per_table idle_deps filter_box_world)
    as (_ & Hsearch & _).
  split; [exact (Hcount idle_deps_keeps_builders_page)|].
  split; [|exact (Hsearch eq_refl)].
  rewrite (Hpage idle_deps_quiet). vm_compute. reflexivity.
Defined.

(** C6 as stated fails: a page that has the [builders_page] element and a
    query string, but no selected table, sees no call of the helper. *)
Lemma helper_not_called_without_tables :
  has_id "builders_page" (page no_tables_world) = true
  /\ location_search no_tables_world <> EmptyString
  /\ emitted (init idle_deps no_tables_world) = []
  /\ ~ In CallCodeBaseBranchOverview (emitted (init idle_deps no_tables_world)).
Proof.
  split; [reflexivity|]. split; [discriminate|].
  split; [reflexivity|]. intros [].
Qed.




End InitSpec.

(* ===================================================================== *)
(** ** The filter inputs *)
(* ===================================================================== *)

Module FilterSpec.
Import Dom DataTables DomFacts ScriptFacts Examples.

(** C3.  Take a table [t] the widget is instantiated on and a text input
    [i] that matches ['.dataTables_filter input'] once the widget is there,
    as the widget's own filter input does.  After [init], a keydown on [i]
    runs a handler bound for [t], and that handler calls [fnFilter] on the
    widget of [t] with the value the input has when the handler runs. *)
Theorem keydown_calls_fnFilter_with_input_value {L} (D : deps L)
    (w : world L) (pre : list element) (t : element) (post : list element)
    (i : element) :
  select_class "tablesorter-js" (page w) = pre ++ t :: post ->
  In i (filter_inputs
          (page (final (widget_setup D t
                          (final (jq_each pre (each_table D) w)))))) ->
  exists before after : list nat,
    handlers_of (nid i) (final (init D w)) = before ++ nid t :: after
    /\ In (CallFnFilter (nid t)
             (value (deref i
                (page (final (jq_each before
                                (fun o => keydown_handler D o i)
                                (final (init D w))))))))
          (emitted (keydown D i (final (init D w)))).
Proof.
  intros Hsel Hin.
  assert (Hbound : In (nid t) (handlers_of (nid i) (final (init D w)))).
  { apply handlers_of_in. destruct (init_unfold D w) as [-> _].
    rewrite Hsel. apply loop_binds, Hin. }
  apply in_split in Hbound as (before & after & Hsplit).
  exists before, after. split; [exact Hsplit|].
  apply (keydown_calls D i _ before (nid t) after Hsplit).
Qed.

Lemma keydown_calls_fnFilter_with_input_value_witness :
  select_class "tablesorter-js" (page builders_world)
  = [table_plain] ++ table_tools :: [table_input; table_both]
  /\ In (filter_input table_tools)
        (filter_inputs
           (page (final (widget_setup widget_deps table_tools
                           (final (jq_each [table_plain]
                                     (each_table widget_deps)
                                     builders_world))))))
  /\ exists before after : list nat,
      handlers_of 1021 (final (init widget_deps builders_world))
      = before ++ 20 :: after
      /\ In (CallFnFilter 20
               (value (deref (filter_input table_tools)
                  (page (final (jq_each before
                                  (fun o => keydown_handler widget_deps o
                                              (filter_input table_tools))
                                  (final (init widget_deps
                                            builders_world))))))))
            (emitted (keydown widget_deps (filter_input table_tools)
                        (final (init widget_deps builders_world)))).
Proof.
  assert (Hsel : select_class "tablesorter-js" (page builders_world)
                 = [table_plain] ++ table_tools :: [table_input; table_both]).
  { vm_compute. reflexivity. }
  assert (Hin : In (filter_input table_tools)
                   (filter_inputs
                      (page (final (widget_setup widget_deps table_tools
                                      (final (jq_each [table_plain]
                                                (each_table widget_deps)
                                                builders_world))))))).
  { apply (nth_error_In _ 0). vm_compute. reflexivity. }
  split; [exact Hsel|]. split; [exact Hin|].
  exact (keydown_calls_fnFilter_with_input_value widget_deps builders_world
           [table_plain] table_tools [table_input; table_both]
           (filter_input table_tools) Hsel Hin).
Defined.

(** C10.  In the iteration for a table [t], every element [i] that matches
    ['.dataTables_filter input'] anywhere in the page, once the widget of
    [t] is there, is given the placeholder [Filter results], is asked to
    take focus and gets a keydown handler that calls [fnFilter] on the
    widget of [t].  Hence, after [init], a keydown on [i] calls [fnFilter]
    on every table in whose iteration [i] was in the page: the input's own
    table and every table initialised later. *)
Theorem every_filter_input_is_wired_to_each_table {L} (D : deps L)
    (w : world L) (pre : list element) (t : element) (post : list element)
    (i : element) :
  select_class "tablesorter-js" (page w) = pre ++ t :: post ->
  In i (filter_inputs
          (page (final (widget_setup D t
                          (final (jq_each pre (each_table D) w)))))) ->
  (forall e,
      find_node (nid i)
        (page (final (each_table D t (final (jq_each pre (each_table D) w)))))
      = Some e ->
      attrs e !! "placeholder" = Some "Filter results")
  /\ In (Focus (nid i))
        (emitted (each_table D t (final (jq_each pre (each_table D) w))))
  /\ In (nid i, nid t)
        (keydown_handlers
           (final (each_table D t (final (jq_each pre (each_table D) w)))))
  /\ In (nid t) (handlers_of (nid i) (final (init D w)))
  /\ exists v : string,
      In (CallFnFilter (nid t) v) (emitted (keydown D i (final (init D w)))).
Proof.
  intros Hsel Hin.
  assert (Hbound : In (nid t) (handlers_of (nid i) (final (init D w)))).
  { apply handlers_of_in. destruct (init_unfold D w) as [-> _].
    rewrite Hsel. apply loop_binds, Hin. }
  split; [|split; [|split; [|split]]].
  - intros e. rewrite each_table_final.
    apply filter_wiring_placeholder, Hin.
  - rewrite each_table_emitted. right. apply filter_wiring_focus, Hin.
  - rewrite each_table_handlers. apply in_or_app. right.
    apply (in_map (fun e => (nid e, nid t))) in Hin. exact Hin.
  - exact Hbound.
  - apply in_split in Hbound as (before & after & Hsplit).
    eexists. apply (keydown_calls D i _ before (nid t) after Hsplit).
Qed.

Lemma every_filter_input_is_wired_to_each_table_witness :
  select_class "tablesorter-js" (page builders_world)
  = [table_plain; table_tools] ++ table_input :: [table_both]
  /\ In (wired_input table_tools)
        (filter_inputs
           (page (final (widget_setup widget_deps table_input
                           (final (jq_each [table_plain; table_tools]
                                     (each_table widget_deps)
                                     builders_world))))))
  /\ In 30 (handlers_of 1021 (final (init widget_deps builders_world)))
  /\ exists v : string,
      In (CallFnFilter 30 v)
         (emitted (keydown widget_deps (wired_input table_tools)
                     (final (init widget_deps builders_world)))).
Proof.
  assert (Hsel : select_class "tablesorter-js" (page builders_world)
                 = [table_plain; table_tools] ++ table_input :: [table_both]).
  { vm_compute. reflexivity. }
  assert (Hin : In (wired_input table_tools)
                   (filter_inputs
                      (page (final (widget_setup widget_deps table_input
                                      (final (jq_each
                                                [table_plain; table_tools]
                                                (each_table widget_deps)
                                                builders_world))))))).
  { apply (nth_error_In _ 0). vm_compute. reflexivity. }
  split; [exact Hsel|]. split; [exact Hin|].
  destruct (every_filter_input_is_wired_to_each_table widget_deps
              builders_world [table_plain; table_tools] table_input
              [table_both] (wired_input table_tools) Hsel Hin)
    as (_ & _ & _ & Hbound & Hcall).
  split; [exact Hbound | exact Hcall].
Defined.

(** On the example page, a key pressed in the filter input of the first
    filterable table filters that table and both tables initialised after
    it; a key pressed in the input of the last one filters only the last. *)
Example keydown_on_first_filter_input :
  emitted (keydown widget_deps (filter_input table_tools)
             (final (init widget_deps builders_world)))
  = [ CallFnFilter 20 "build"; CallFnFilter 30 "build";
      CallFnFilter 40 "build" ].
Proof. vm_compute. reflexivity. Qed.

Example keydown_on_last_filter_input :
  emitted (keydown widget_deps (filter_input table_both)
             (final (init widget_deps builders_world)))
  = [ CallFnFilter 40 "build" ].
Proof. vm_compute. reflexivity. Qed.

(** A key pressed in a text input that lies inside another bound text input
    reaches both: the event visits the inner input, the outer input, the
    filter box and the body, and each input's handler reads its own value. *)
Example keydown_bubbles_to_outer_input :
  map nid (event_path inner_input (page nested_world)) = [1013; 1012; 1010; 0]
  /\ emitted (keydown idle_deps inner_input
                (final (init idle_deps nested_world)))
     = [ CallFnFilter 10 "inner"; CallFnFilter 10 "outer" ].
Proof. split; vm_compute; reflexivity. Qed.

End FilterSpec.

(* ===================================================================== *)
(** ** Further properties of the options object *)
(* ===================================================================== *)

Module OptionLaws.
Import Dom DataTables ScriptFacts OptionFacts Examples.

(** The options before [aoColumns] is assigned, by the two class tests. *)
Lemma build_options_by_class this k :
  k <> "aoColumns" ->
  build_options this !! k
  = match hasClass "tools-js" this, hasClass "input-js" this with
    | true, true => input_branch (tools_branch optionTable_literal) !! k
    | true, false => tools_branch optionTable_literal !! k
    | false, true => input_branch optionTable_literal !! k
    | false, false => optionTable_literal !! k
    end.
Proof.
  intros Hk. rewrite build_options_other by exact Hk.
  destruct (hasClass "tools-js" this), (hasClass "input-js" this);
    reflexivity.
Qed.

Lemma column_entry_by_class th1 th2 :
  hasClass "no-tablesorter-js" th1 = hasClass "no-tablesorter-js" th2 ->
  column_entry th1 = column_entry th2.
Proof. unfold column_entry. intros ->. reflexivity. Qed.

Lemma column_entries_by_class ths1 ths2 :
  map (hasClass "no-tablesorter-js") ths1
  = map (hasClass "no-tablesorter-js") ths2 ->
  map column_entry ths1 = map column_entry ths2.
Proof.
  revert ths2. induction ths1 as [|a l IH]; intros [|b l']; simpl;
    try discriminate; [reflexivity|].
  intros [= Hab Hl]. rewrite (column_entry_by_class a b Hab), (IH l' Hl).
  reflexivity.
Qed.

(** The layout, the filter switch and the language strings, by whether
    either class is there. *)
Lemma build_options_layout this :
  build_options this !! "sDom"
  = Some (Js.Str (if hasClass "tools-js" this || hasClass "input-js" this
                  then sDom_tools
                  else "<" +:+ dq +:+ "table-wrapper" +:+ dq +:+ "t>"))
  /\ build_options this !! "bFilter"
     = Some (Js.Bool (hasClass "tools-js" this || hasClass "input-js" this))
  /\ if hasClass "tools-js" this || hasClass "input-js" this
     then exists lang, build_options this !! "oLanguage" = Some (Js.Obj lang)
     else build_options this !! "oLanguage" = None.
Proof.
  rewrite !(build_options_by_class this) by discriminate.
  destruct (hasClass "tools-js" this), (hasClass "input-js" this);
    (split; [reflexivity|]); (split; [reflexivity|]);
    cbn [orb]; try reflexivity; eexists; reflexivity.
Qed.

(** X1.  Whatever classes the table has, the options passed to the widget
    keep sorting on with an empty initial order, automatic widths off,
    retrieval of an existing widget on, server-side processing off, 50
    entries per page and state saving on: no class branch touches them. *)
Theorem options_fixed_for_every_table {L} (D : deps L) (w : world L)
    (this : element) (o : options) :
  In (CallDataTable this o) (emitted (init D w)) ->
  o !! "bSort" = Some (Js.Bool true)
  /\ o !! "bAutoWidth" = Some (Js.Bool false)
  /\ o !! "bRetrieve" = Some (Js.Bool true)
  /\ o !! "asSorting" = Some (Js.Bool true)
  /\ o !! "bServerSide" = Some (Js.Bool false)
  /\ o !! "bSearchable" = Some (Js.Bool true)
  /\ o !! "aaSorting" = Some (Js.Arr [])
  /\ o !! "iDisplayLength" = Some (Js.Num 50)
  /\ o !! "bStateSave" = Some (Js.Bool true).
Proof.
  intros Hcall. apply calls_built in Hcall. subst o.
  repeat split; rewrite build_options_by_class by discriminate;
    destruct (hasClass "tools-js" this), (hasClass "input-js" this);
    reflexivity.
Qed.

Lemma options_fixed_for_every_table_witness :
  In (CallDataTable table_both (build_options table_both))
     (emitted (init widget_deps builders_world))
  /\ build_options table_both !! "bRetrieve" = Some (Js.Bool true)
  /\ build_options table_both !! "iDisplayLength" = Some (Js.Num 50).
Proof.
  assert (Hcall : In (CallDataTable table_both (build_options table_both))
                     (emitted (init widget_deps builders_world))).
  { apply (nth_error_In _ 9). vm_compute. reflexivity. }
  split; [exact Hcall|].
  destruct (options_fixed_for_every_table widget_deps builders_world
              table_both (build_options table_both) Hcall)
    as (_ & _ & Hr & _ & _ & _ & _ & Hn & _).
  split; [exact Hr | exact Hn].
Defined.

(** X2.  The four feature switches are functions of the two classes alone:
    pagination, length change and info are on exactly for a [tools-js]
    table, and filtering is on exactly for a table with [tools-js] or
    [input-js]. *)
Theorem switches_follow_classes {L} (D : deps L) (w : world L)
    (this : element) (o : options) :
  In (CallDataTable this o) (emitted (init D w)) ->
  o !! "bPaginate" = Some (Js.Bool (hasClass "tools-js" this))
  /\ o !! "bLengthChange" = Some (Js.Bool (hasClass "tools-js" this))
  /\ o !! "bInfo" = Some (Js.Bool (hasClass "tools-js" this))
  /\ o !! "bFilter"
     = Some (Js.Bool (hasClass "tools-js" this || hasClass "input-js" this)).
Proof.
  intros Hcall. apply calls_built in Hcall. subst o.
  repeat split; rewrite build_options_by_class by discriminate;
    destruct (hasClass "tools-js" this), (hasClass "input-js" this);
    reflexivity.
Qed.

Lemma switches_follow_classes_witness :
  In (CallDataTable table_input (build_options table_input))
     (emitted (init widget_deps builders_world))
  /\ build_options table_input !! "bPaginate" = Some (Js.Bool false)
  /\ build_options table_input !! "bFilter" = Some (Js.Bool true).
Proof.
  assert (Hcall : In (CallDataTable table_input (build_options table_input))
                     (emitted (init widget_deps builders_world))).
  { apply (nth_error_In _ 5). vm_compute. reflexivity. }
  split; [exact Hcall|].
  destruct (switches_follow_classes widget_deps builders_world
              table_input (build_options table_input) Hcall)
    as (Hp & _ & _ & Hf).
  split; [exact Hp | exact Hf].
Defined.

(** X3.  The layout always places the table, and it places the filter input
    exactly when filtering is switched on; the language strings are given
    exactly in that case too. *)
Theorem layout_matches_filtering {L} (D : deps L) (w : world L)
    (this : element) (o : options) :
  In (CallDataTable this o) (emitted (init D w)) ->
  exists layout : string,
    o !! "sDom" = Some (Js.Str layout)
    /\ In "t"%char (sDom_features false layout)
    /\ (In "f"%char (sDom_features false layout)
        <-> o !! "bFilter" = Some (Js.Bool true))
    /\ (o !! "oLanguage" = None <-> o !! "bFilter" = Some (Js.Bool false)).
Proof.
  intros Hcall. apply calls_built in Hcall. subst o.
  destruct (build_options_layout this) as (Hdom & Hfilter & Hlang).
  rewrite Hdom, Hfilter.
  destruct (hasClass "tools-js" this || hasClass "input-js" this).
  - exists sDom_tools. split; [reflexivity|].
    rewrite sDom_tools_features. split; [simpl; tauto|]. split.
    + split; [reflexivity | simpl; tauto].
    + destruct Hlang as [lang ->]. split; discriminate.
  - eexists. split; [reflexivity|].
    rewrite sDom_plain_features. split; [simpl; tauto|]. split.
    + split; [intros [H|[]]; discriminate H | discriminate].
    + rewrite Hlang. split; reflexivity.
Qed.

Lemma layout_matches_filtering_witness :
  In (CallDataTable table_plain (build_options table_plain))
     (emitted (init widget_deps builders_world))
  /\ exists layout : string,
      build_options table_plain !! "sDom" = Some (Js.Str layout)
      /\ In "t"%char (sDom_features false layout)
      /\ (build_options table_plain !! "oLanguage" = None
          <-> build_options table_plain !! "bFilter" = Some (Js.Bool false)).
Proof.
  assert (Hcall : In (CallDataTable table_plain (build_options table_plain))
                     (emitted (init widget_deps builders_world))).
  { apply (nth_error_In _ 0). vm_compute. reflexivity. }
  split; [exact Hcall|].
  destruct (layout_matches_filtering widget_deps builders_world
              table_plain (build_options table_plain) Hcall)
    as (layout & Hs & Ht & _ & Hl).
  exists layout. split; [exact Hs|]. split; [exact Ht | exact Hl].
Defined.

Lemma literal_lookup_other k :
  ~ In k option_keys -> optionTable_literal !! k = None.
Proof.
  intros Hk. unfold optionTable_literal, Js.object.
  apply not_elem_of_list_to_map_1. rewrite list_elem_of_In.
  intros Hin. apply Hk. simpl in Hin. simpl. tauto.
Qed.

(** X4.  The options object never carries a property other than the
    fourteen of the literal, [oLanguage] and [aoColumns]: nothing such as
    a pagination type or a draw callback is ever passed to the widget. *)
Theorem options_have_no_other_property {L} (D : deps L) (w : world L)
    (this : element) (o : options) (k : string) :
  In (CallDataTable this o) (emitted (init D w)) ->
  ~ In k option_keys ->
  o !! k = None.
Proof.
  intros Hcall Hk. apply calls_built in Hcall. subst o.
  assert (Hne : forall k', In k' option_keys -> k' <> k).
  { intros k' Hin ->. exact (Hk Hin). }
  rewrite build_options_by_class
    by (apply not_eq_sym, Hne; simpl; tauto).
  unfold tools_branch, input_branch.
  destruct (hasClass "tools-js" this), (hasClass "input-js" this);
    cbv zeta;
    rewrite ?lookup_insert_ne by (apply Hne; simpl; tauto);
    apply literal_lookup_other, Hk.
Qed.

Lemma options_have_no_other_property_witness :
  In (CallDataTable table_both (build_options table_both))
     (emitted (init widget_deps builders_world))
  /\ ~ In "sPaginationType" option_keys
  /\ build_options table_both !! "sPaginationType" = None.
Proof.
  assert (Hcall : In (CallDataTable table_both (build_options table_both))
                     (emitted (init widget_deps builders_world))).
  { apply (nth_error_In _ 9). vm_compute. reflexivity. }
  assert (Hk : ~ In "sPaginationType" option_keys).
  { simpl. intros H. decompose [or] H; try discriminate. assumption. }
  split; [exact Hcall|]. split; [exact Hk|].
  exact (options_have_no_other_property widget_deps builders_world
           table_both (build_options table_both) "sPaginationType" Hcall Hk).
Defined.

(** X5.  The options depend on nothing but the two classes of the table and
    on which of its header cells are marked [no-tablesorter-js]: two tables
    that agree there are given equal options, whatever their rows, texts,
    ids or other classes. *)
Theorem options_depend_on_classes_only {L1 L2} (D1 : deps L1) (D2 : deps L2)
    (w1 : world L1) (w2 : world L2) (this1 this2 : element)
    (o1 o2 : options) :
  In (CallDataTable this1 o1) (emitted (init D1 w1)) ->
  In (CallDataTable this2 o2) (emitted (init D2 w2)) ->
  hasClass "tools-js" this1 = hasClass "tools-js" this2 ->
  hasClass "input-js" this1 = hasClass "input-js" this2 ->
  map (hasClass "no-tablesorter-js")
      (select_child_descendant "thead" "th" this1)
  = map (hasClass "no-tablesorter-js")
        (select_child_descendant "thead" "th" this2) ->
  o1 = o2.
Proof.
  intros Hc1 Hc2 Htools Hinput Hheaders.
  apply calls_built in Hc1. apply calls_built in Hc2. subst o1 o2.
  unfold build_options. rewrite !column_list_entries.
  rewrite Htools, Hinput, (column_entries_by_class _ _ Hheaders).
  reflexivity.
Qed.

Lemma options_depend_on_classes_only_witness :
  In (CallDataTable table_tools (build_options table_tools))
     (emitted (init widget_deps builders_world))
  /\ In (CallDataTable table_reports (build_options table_reports))
        (emitted (init idle_deps reports_world))
  /\ table_tools <> table_reports
  /\ build_options table_tools = build_options table_reports.
Proof.
  assert (Hc1 : In (CallDataTable table_tools (build_options table_tools))
                   (emitted (init widget_deps builders_world))).
  { apply (nth_error_In _ 2). vm_compute. reflexivity. }
  assert (Hc2 : In (CallDataTable table_reports (build_options table_reports))
                   (emitted (init idle_deps reports_world))).
  { apply (nth_error_In _ 1). vm_compute. reflexivity. }
  split; [exact Hc1|]. split; [exact Hc2|]. split; [discriminate|].
  exact (options_depend_on_classes_only widget_deps idle_deps
           builders_world reports_world table_tools table_reports _ _
           Hc1 Hc2 eq_refl eq_refl eq_refl).
Defined.

(** X6.  A table that has no [thead] among its children is given an empty
    [aoColumns], even when it has header cells elsewhere. *)
Theorem table_without_thead_has_no_columns {L} (D : deps L) (w : world L)
    (this : element) (o : options) :
  In (CallDataTable this o) (emitted (init D w)) ->
  (forall c, In c (children this) -> hasTag "thead" c = false) ->
  o !! "aoColumns" = Some (Js.Arr []).
Proof.
  intros Hcall Hnone. apply calls_built in Hcall. subst o.
  rewrite build_options_aoColumns, column_list_entries.
  unfold select_child_descendant.
  assert (Hsel : flat_map
                   (fun c => if hasTag "thead" c
                             then List.filter (hasTag "th") (descendants c)
                             else [])
                   (children this) = []).
  { induction (children this) as [|c ch IH]; [reflexivity|].
    simpl. rewrite (Hnone c (or_introl eq_refl)). simpl.
    apply IH. intros c' Hin. apply Hnone. right. exact Hin. }
  rewrite Hsel. reflexivity.
Qed.

Lemma table_without_thead_has_no_columns_witness :
  In (CallDataTable table_bare (build_options table_bare))
     (emitted (init widget_deps bare_world))
  /\ (forall c, In c (children table_bare) -> hasTag "thead" c = false)
  /\ In "th" (map tag (descendants table_bare))
  /\ build_options table_bare !! "aoColumns" = Some (Js.Arr []).
Proof.
  assert (Hcall : In (CallDataTable table_bare (build_options table_bare))
                     (emitted (init widget_deps bare_world))).
  { apply (nth_error_In _ 0). vm_compute. reflexivity. }
  assert (Hnone : forall c, In c (children table_bare) ->
                            hasTag "thead" c = false).
  { simpl. intros c [<-|[]]. reflexivity. }
  split; [exact Hcall|]. split; [exact Hnone|].
  split; [simpl; tauto|].
  exact (table_without_thead_has_no_columns widget_deps bare_world
           table_bare (build_options table_bare) Hcall Hnone).
Defined.

End OptionLaws.

(* ===================================================================== *)
(** ** Further properties of [init] and of the key handler *)
(* ===================================================================== *)

Module InitLaws.
Import Dom DataTables DomFacts ScriptFacts Examples.

Section Traces.

Context {L : Type} (D : deps L).

Lemma filter_calls_app evs1 evs2 :
  filter_calls (evs1 ++ evs2) = filter_calls evs1 ++ filter_calls evs2.
Proof. apply flat_map_app. Qed.

Lemma focus_targets_app evs1 evs2 :
  focus_targets (evs1 ++ evs2) = focus_targets evs1 ++ focus_targets evs2.
Proof. apply flat_map_app. Qed.

Lemma focus_targets_focus (sel : list element) :
  focus_targets (map (fun e => Focus (nid e)) sel) = map nid sel.
Proof. induction sel; simpl; congruence. Qed.

Lemma filter_calls_focus (sel : list element) :
  filter_calls (map (fun e => Focus (nid e)) sel) = [].
Proof. induction sel; simpl; auto. Qed.

Lemma filter_calls_each_table t w :
  filter_calls (emitted (each_table D t w)) = [].
Proof.
  rewrite each_table_emitted, filter_wiring_emitted.
  change (filter_calls (?c :: ?r)) with (filter_calls r).
  rewrite filter_calls_app, filter_calls_focus.
  destruct (helper_due _); reflexivity.
Qed.

Lemma focus_targets_each_table t w :
  focus_targets (emitted (each_table D t w))
  = map nid (filter_inputs (page (final (widget_setup D t w)))).
Proof.
  rewrite each_table_emitted, filter_wiring_emitted.
  change (focus_targets (?c :: ?r)) with (focus_targets r).
  rewrite focus_targets_app, focus_targets_focus.
  destruct (helper_due _); reflexivity.
Qed.

Lemma loop_never_filters l w :
  filter_calls (emitted (jq_each l (each_table D) w)) = [].
Proof.
  revert w. induction l as [|t l IH]; intros w; [reflexivity|].
  destruct (jq_each_cons t l (each_table D) w) as [_ ->].
  rewrite filter_calls_app, filter_calls_each_table, IH. reflexivity.
Qed.

Lemma loop_helper_bound l w :
  helper_calls (emitted (jq_each l (each_table D) w)) <= length l.
Proof.
  revert w. induction l as [|t l IH]; intros w; [reflexivity|].
  destruct (jq_each_cons t l (each_table D) w) as [_ ->].
  rewrite helper_calls_app, helper_calls_each_table.
  specialize (IH (final (each_table D t w))). simpl.
  destruct (helper_due _); lia.
Qed.

Lemma loop_handlers_and_focus l w :
  exists more : list (nat * nat),
    keydown_handlers (final (jq_each l (each_table D) w))
    = keydown_handlers w ++ more
    /\ map fst more = focus_targets (emitted (jq_each l (each_table D) w))
    /\ location_search (final (jq_each l (each_table D) w))
       = location_search w.
Proof.
  revert w. induction l as [|t l IH]; intros w.
  - exists []. rewrite app_nil_r. repeat split; reflexivity.
  - destruct (jq_each_cons t l (each_table D) w) as [-> ->].
    destruct (IH (final (each_table D t w))) as (more & Hh & Hf & Hs).
    exists (map (fun e => (nid e, nid t))
                (filter_inputs (page (final (widget_setup D t w))))
            ++ more).
    rewrite Hh, Hs, each_table_handlers, each_table_search, <- app_assoc.
    split; [reflexivity|]. split; [|reflexivity].
    rewrite map_app, focus_targets_app, Hf, focus_targets_each_table.
    rewrite map_map. reflexivity.
Qed.





End Traces.

(** X7.  [init] never filters anything: whatever the dependencies do, it
    makes no call of [fnFilter]; filtering happens on key presses only. *)
Theorem init_never_calls_fnFilter {L} (D : deps L) (w : world L) :
  filter_calls (emitted (init D w)) = []
  /\ forall oTable sInput,
      ~ In (CallFnFilter oTable sInput) (emitted (init D w)).
Proof.
  assert (Hnone : filter_calls (emitted (init D w)) = []).
  { destruct (init_unfold D w) as [_ ->]. apply loop_never_filters. }
  split; [exact Hnone|].
  intros oTable sInput Hin.
  assert (Hc : In (oTable, sInput) (filter_calls (emitted (init D w)))).
  { unfold filter_calls. apply in_flat_map.
    exists (CallFnFilter oTable sInput). simpl. auto. }
  rewrite Hnone in Hc. exact Hc.
Qed.



(** X9.  Whatever the dependencies do, the builders-page helper is called
    at most once for every selected table. *)
Theorem helper_called_at_most_once_per_table {L} (D : deps L)
    (w : world L) :
  helper_calls (emitted (init D w))
  <= length (select_class "tablesorter-js" (page w)).
Proof.
  destruct (init_unfold D w) as [_ ->]. apply loop_helper_bound.
Qed.

(** X10.  [init] only ever adds handlers: those bound before are kept, in
    order, in front of the new ones; every node that gets a new handler is
    also asked to take focus, the same nodes in the same order; and the
    query string is left alone. *)
Theorem init_appends_handlers_and_focuses_them {L} (D : deps L)
    (w : world L) :
  exists more : list (nat * nat),
    keydown_handlers (final (init D w)) = keydown_handlers w ++ more
    /\ map fst more = focus_targets (emitted (init D w))
    /\ location_search (final (init D w)) = location_search w.
Proof.
  destruct (init_unfold D w) as [-> ->]. apply loop_handlers_and_focus.
Qed.

Section Revisit.

Context {L : Type} (D : deps L).

(** The page [p] with the placeholder on its filter inputs. *)
Local Abbreviation wired p :=
  (set_attr (map nid (filter_inputs p)) "placeholder" "Filter results" p).

Lemma select_class_set_attr ids k v c d :
  map nid (select_class c (set_attr ids k v d)) = map nid (select_class c d).
Proof.
  unfold select_class. rewrite elements_set_attr.
  rewrite filter_map_invariant by (intros a; apply hasClass_set_attr).
  rewrite map_map. apply map_ext. apply set_attr_nid.
Qed.

Lemma node_data_set_attr ids v e :
  node_data (set_attr ids "placeholder" v e) = node_data e.
Proof.
  destruct e as [n t i c a x y ch]. unfold node_data. simpl.
  destruct (existsb _ ids); [rewrite delete_insert_eq|]; reflexivity.
Qed.

Lemma handler_pairs_by_nid tables inputs :
  handler_pairs tables inputs
  = flat_map (fun tn => map (fun n => (n, tn)) (map nid inputs))
             (map nid tables).
Proof.
  unfold handler_pairs. induction tables as [|t l IH]; [reflexivity|].
  simpl. rewrite IH, map_map. reflexivity.
Qed.

Lemma handler_pairs_length tables inputs :
  length (handler_pairs tables inputs) = length tables * length inputs.
Proof.
  unfold handler_pairs. induction tables as [|t l IH]; [reflexivity|].
  simpl. rewrite length_app, length_map, IH. reflexivity.
Qed.

Lemma quiet_inputs p (w : world L) :
  page w = p \/ page w = wired p ->
  map nid (filter_inputs (page w)) = map nid (filter_inputs p).
Proof.
  intros [->| ->]; [reflexivity | apply filter_inputs_set_attr].
Qed.

Lemma quiet_step p t w :
  quiet D ->
  page w = p \/ page w = wired p ->
  page (final (each_table D t w)) = wired p.
Proof.
  intros Hq Hw. rewrite each_table_page_quiet by exact Hq.
  destruct Hw as [->| ->]; [reflexivity|].
  rewrite filter_inputs_set_attr. apply set_attr_idem.
Qed.

Lemma loop_handlers_quiet l p w :
  quiet D ->
  page w = p \/ page w = wired p ->
  keydown_handlers (final (jq_each l (each_table D) w))
  = keydown_handlers w ++ handler_pairs l (filter_inputs p).
Proof.
  intros Hq. revert w. induction l as [|t l IH]; intros w Hw.
  - simpl. rewrite app_nil_r. reflexivity.
  - destruct (jq_each_cons t l (each_table D) w) as [-> _].
    rewrite (IH _ (or_intror (quiet_step p t w Hq Hw))).
    rewrite each_table_handlers, widget_setup_page, (proj1 Hq).
    rewrite <- app_assoc. f_equal.
    change (handler_pairs (t :: l) (filter_inputs p))
      with (map (fun i => (nid i, nid t)) (filter_inputs p)
              ++ handler_pairs l (filter_inputs p)).
    f_equal.
    rewrite <- (map_map nid (fun n => (n, nid t)) (filter_inputs (page w))).
    rewrite (quiet_inputs p w Hw), map_map. reflexivity.
Qed.

Lemma init_page_quiet w :
  quiet D ->
  page (final (init D w)) = page w
  \/ page (final (init D w)) = wired (page w).
Proof.
  intros Hq. destruct (init_unfold D w) as [-> _].
  rewrite (loop_page_quiet D _ (page w) w Hq (or_introl eq_refl)).
  destruct (select_class "tablesorter-js" (page w)); auto.
Qed.

End Revisit.

(** X11.  When the dependencies leave the page alone, as the widget does
    for a table it has already been instantiated on, [init] binds exactly
    one new handler for every pair of a selected table and a filter input
    of the page, table by table; so it binds as many handlers as there are
    tables times inputs. *)
Theorem init_binds_every_input_to_every_table {L} (D : deps L)
    (w : world L) :
  quiet D ->
  keydown_handlers (final (init D w))
  = keydown_handlers w
      ++ handler_pairs (select_class "tablesorter-js" (page w))
                       (filter_inputs (page w))
  /\ length (keydown_handlers (final (init D w)))
     = length (keydown_handlers w)
       + length (select_class "tablesorter-js" (page w))
         * length (filter_inputs (page w)).
Proof.
  intros Hq.
  assert (Hh : keydown_handlers (final (init D w))
               = keydown_handlers w
                   ++ handler_pairs (select_class "tablesorter-js" (page w))
                                    (filter_inputs (page w))).
  { destruct (init_unfold D w) as [-> _].
    apply loop_handlers_quiet; auto. }
  split; [exact Hh|].
  rewrite Hh, length_app, handler_pairs_length. reflexivity.
Qed.

Lemma init_binds_every_input_to_every_table_witness :
  quiet idle_deps
  /\ keydown_handlers (final (init idle_deps revisited_world))
     = [ (7, 7); (1021, 20); (1031, 20); (1021, 30); (1031, 30) ].
Proof.
  split; [exact InitSpec.idle_deps_quiet|].
  exact (proj1 (init_binds_every_input_to_every_table idle_deps
                  revisited_world InitSpec.idle_deps_quiet)).
Defined.

(** X12.  [init] is not idempotent.  When the dependencies leave the page
    alone, a second run instantiates the widget on the same tables again
    and binds every handler of the first run a second time.  (On the
    example page a key press then filters each table twice.) *)
Theorem second_init_binds_handlers_again {L} (D : deps L) (w : world L) :
  quiet D ->
  map nid (widget_targets (emitted (init D (final (init D w)))))
  = map nid (select_class "tablesorter-js" (page w))
  /\ keydown_handlers (final (init D (final (init D w))))
     = keydown_handlers w
         ++ handler_pairs (select_class "tablesorter-js" (page w))
                          (filter_inputs (page w))
         ++ handler_pairs (select_class "tablesorter-js" (page w))
                          (filter_inputs (page w)).
Proof.
  intros Hq.
  assert (Hsel : map nid (select_class "tablesorter-js"
                            (page (final (init D w))))
                 = map nid (select_class "tablesorter-js" (page w))).
  { destruct (init_page_quiet D w Hq) as [-> | ->];
      [reflexivity | apply select_class_set_attr]. }
  split.
  - destruct (init_unfold D (final (init D w))) as [_ ->].
    rewrite loop_targets. exact Hsel.
  - destruct (init_unfold D (final (init D w))) as [-> _].
    rewrite (loop_handlers_quiet D _ (page w) _ Hq (init_page_quiet D w Hq)).
    destruct (init_unfold D w) as [-> _].
    rewrite (loop_handlers_quiet D _ (page w) w Hq (or_introl eq_refl)).
    rewrite <- app_assoc. do 2 f_equal.
    rewrite (handler_pairs_by_nid (select_class _ (page (final _)))).
    rewrite (handler_pairs_by_nid (select_class _ (page w))).
    destruct (init_unfold D w) as [Hf _]. rewrite <- Hf, Hsel.
    reflexivity.
Qed.

Lemma second_init_binds_handlers_again_witness :
  quiet idle_deps
  /\ keydown_handlers
       (final (init idle_deps (final (init idle_deps revisited_world))))
     = [ (7, 7); (1021, 20); (1031, 20); (1021, 30); (1031, 30);
         (1021, 20); (1031, 20); (1021, 30); (1031, 30) ]
  /\ filter_calls
       (emitted (keydown idle_deps (filter_input table_input)
                   (final (init idle_deps
                             (final (init idle_deps revisited_world))))))
     = [ (20, "build"); (30, "build"); (20, "build"); (30, "build") ].
Proof.
  split; [exact InitSpec.idle_deps_quiet|].
  split; [|vm_compute; reflexivity].
  exact (proj2 (second_init_binds_handlers_again idle_deps revisited_world
                  InitSpec.idle_deps_quiet)).
Defined.

(** X13.  When the dependencies leave the page alone, [init] leaves every
    node where it is and as it is, apart from the placeholder: the page has
    the same nodes in the same document order, each with its tag, id,
    classes, value, text and every attribute other than [placeholder]. *)
Theorem init_keeps_every_node {L} (D : deps L) (w : world L) :
  quiet D ->
  map node_data (elements (page (final (init D w))))
  = map node_data (elements (page w)).
Proof.
  intros Hq. destruct (init_page_quiet D w Hq) as [-> | ->];
    [reflexivity|].
  rewrite elements_set_attr, map_map. apply map_ext.
  apply node_data_set_attr.
Qed.

Lemma init_keeps_every_node_witness :
  quiet idle_deps
  /\ page (final (init idle_deps revisited_world)) <> page revisited_world
  /\ map node_data (elements (page (final (init idle_deps revisited_world))))
     = map node_data (elements (page revisited_world)).
Proof.
  split; [exact InitSpec.idle_deps_quiet|]. split.
  - intros Heq.
    apply (f_equal (fun d => match find_node 1021 d with
                             | Some e => attrs e !! "placeholder"
                             | None => None
                             end)) in Heq.
    vm_compute in Heq. discriminate Heq.
  - exact (init_keeps_every_node idle_deps revisited_world
             InitSpec.idle_deps_quiet).
Defined.

End InitLaws.

(* ===================================================================== *)
(** ** The way of an event *)
(* ===================================================================== *)

Module PathFacts.
Import Dom.

Lemma last_cons_nonempty {A} (x : A) (p : list A) :
  p <> [] -> last (x :: p) = last p.
Proof. destruct p; [congruence | reflexivity]. Qed.

Lemma find_app_first {A} (p : A -> bool) (l1 l2 : list A) :
  List.find p (l1 ++ l2)
  = match List.find p l1 with
    | Some x => Some x
    | None => List.find p l2
    end.
Proof.
  induction l1 as [|a l1 IH]; simpl; [reflexivity|].
  destruct (p a); [reflexivity | exact IH].
Qed.

(** The way down to a node ends at the node a reference of that identity
    denotes, and there is no way exactly when there is no such node. *)
Lemma path_to_target n d :
  last (path_to n d) = find_node n d.
Proof.
  unfold find_node.
  induction d as [m t i c a v x ch IH] using element_tree_ind.
  cbn [path_to elements nid children List.find].
  destruct (Nat.eqb m n); [reflexivity|].
  assert (Hch : last (first_nonempty (map (path_to n) ch))
                = List.find (fun e => Nat.eqb (nid e) n)
                            (flat_map elements ch)
                /\ (first_nonempty (map (path_to n) ch) = [] ->
                    List.find (fun e => Nat.eqb (nid e) n)
                              (flat_map elements ch) = None)).
  { induction IH as [|e ch He _ IHch]; [split; reflexivity|].
    cbn [map first_nonempty flat_map]. rewrite find_app_first, <- He.
    destruct (path_to n e) as [|y p] eqn:Hp.
    - exact IHch.
    - cbn [first_nonempty]. destruct (last (y :: p)) eqn:Hl.
      + split; [reflexivity | discriminate].
      + apply last_None in Hl. discriminate. }
  destruct Hch as [Hlast Hnone].
  destruct (first_nonempty (map (path_to n) ch)) as [|y p] eqn:Hp.
  - symmetry. apply Hnone. reflexivity.
  - rewrite <- Hlast. apply last_cons_nonempty. discriminate.
Qed.

End PathFacts.
